(** * Network centrality workflow (CPAC/network_centrality/network_centrality.py)

  A shallow embedding of the module that declares the 3dDegreeCentrality
  command descriptor, resolves its outputs, computes eigenvector
  centrality from a similarity matrix and assembles the two-stage
  workflow, followed by the properties established about it. *)

From Stdlib Require Import ZArith QArith Qabs String Ascii List DecimalString.
From stdpp Require Import gmap strings list sorting.

Local Open Scope string_scope.
Local Open Scope Z_scope.
Local Open Scope list_scope.

(** ** Python built-ins used by the module *)

Module Py.

(** Exceptions that can leave the functions of the module. *)
Inductive exn :=
| AttributeError (msg : string)
| ValueError (msg : string)
| TraitError (msg : string)
| IOError (msg : string)
| RuntimeError (msg : string)
| FileNotFoundError (msg : string)
| ArpackNoConvergence
| Exception (msg : string).

(** [s.startswith(p)], [s.endswith(p)]. *)
Definition startswith (s p : string) : bool := String.prefix p s.

Fixpoint endswith (s suf : string) : bool :=
  if String.eqb s suf then true
  else match s with
       | EmptyString => false
       | String _ s' => endswith s' suf
       end.

(** [s.split(sep)] for a one-character separator. *)
Fixpoint split (sep : ascii) (s : string) : list string :=
  match s with
  | EmptyString => [EmptyString]
  | String c s' =>
      if Ascii.eqb c sep then EmptyString :: split sep s'
      else match split sep s' with
           | [] => [String c EmptyString]
           | x :: xs => String c x :: xs
           end
  end.

(** [sep.join(l)]. *)
Fixpoint join (sep : string) (l : list string) : string :=
  match l with
  | [] => EmptyString
  | [x] => x
  | x :: xs => x +:+ sep +:+ join sep xs
  end.

(** [s * n] for a string [s]. *)
Fixpoint repeat_str (s : string) (n : nat) : string :=
  match n with
  | O => EmptyString
  | S n' => s +:+ repeat_str s n'
  end.

(** [len(l)] and the truth value of an integer. *)
Definition len {A} (l : list A) : Z := Z.of_nat (length l).
Definition truthy_int (n : Z) : bool := negb (n =? 0).
Definition truthy_str (s : string) : bool := negb (String.eqb s EmptyString).

(** ['%d' % n]. *)
Definition fmt_d (n : Z) : string := NilZero.string_of_int (Z.to_int n).

(** ['%f' % q]: six decimals, ties to even on the exact value. *)
Definition round_half_even (q : Q) : Z :=
  let n := Qnum q in
  let d := Z.pos (Qden q) in
  let fl := n / d in
  let r2 := 2 * (n mod d) in
  if r2 <? d then fl
  else if d <? r2 then fl + 1
  else if Z.even fl then fl else fl + 1.

Definition pad6 (s : string) : string :=
  repeat_str "0" (6 - String.length s)%nat +:+ s.

Definition fmt_f (q : Q) : string :=
  let scaled := round_half_even (Qabs q * (1000000 # 1)) in
  (if Z.ltb (Qnum q) 0 then "-" else EmptyString) +:+
  fmt_d (scaled / 1000000) +:+ "." +:+ pad6 (fmt_d (scaled mod 1000000)).

(** Values a formatting operator can receive. *)
Inductive value :=
| VStr (s : string)
| VFloat (q : Q)
| VInt (z : Z)
| VBool (b : bool).

Definition str (v : value) : string :=
  match v with
  | VStr s => s
  | VFloat q => fmt_f q
  | VInt z => fmt_d z
  | VBool true => "True"
  | VBool false => "False"
  end.

(** [fmt % v] for a format with a single conversion and a value of the
    type the conversion expects. *)
Definition convert (c : ascii) (v : value) : string :=
  match v with
  | VFloat q =>
      if Ascii.eqb c "d" then fmt_d (Z.quot (Qnum q) (Z.pos (Qden q)))
      else fmt_f q
  | VInt z => if Ascii.eqb c "f" then fmt_f (inject_Z z) else str v
  | _ => str v
  end.

Fixpoint percent (fmt : string) (v : value) : string :=
  match fmt with
  | EmptyString => EmptyString
  | String c rest =>
      if Ascii.eqb c "%" then
        match rest with
        | EmptyString => String c EmptyString
        | String k rest' => convert k v +:+ rest'
        end
      else String c (percent rest v)
  end.

(** ['%' in s]. *)
Fixpoint contains_char (c : ascii) (s : string) : bool :=
  match s with
  | EmptyString => false
  | String k s' => Ascii.eqb k c || contains_char c s'
  end.

End Py.

(** ** posixpath: the part of [os.path] behind [os.path.abspath] *)

Module PosixPath.
Import Py.

Definition isabs (s : string) : bool := startswith s "/".

(** [os.path.join(a, b)]. *)
Definition join (a b : string) : string :=
  if startswith b "/" then b
  else if String.eqb a EmptyString || endswith a "/" then a +:+ b
  else a +:+ "/" +:+ b.

(** One turn of the loop of [normpath] over the components. *)
Definition normpath_step (initial_slashes : nat)
    (new_comps : list string) (comp : string) : list string :=
  if String.eqb comp EmptyString || String.eqb comp "." then new_comps
  else if negb (String.eqb comp "..")
          || (Nat.eqb initial_slashes 0 && bool_decide (new_comps = []))
          || (negb (bool_decide (new_comps = []))
              && String.eqb (List.last new_comps EmptyString) "..")
       then new_comps ++ [comp]
  else if negb (bool_decide (new_comps = [])) then removelast new_comps
  else new_comps.

Definition initial_slashes (path : string) : nat :=
  if startswith path "/" then
    if startswith path "//" && negb (startswith path "///") then 2%nat
    else 1%nat
  else 0%nat.

Definition normpath (path : string) : string :=
  if String.eqb path EmptyString then "."
  else
    let sl := initial_slashes path in
    let comps := fold_left (normpath_step sl) (split "/" path) [] in
    let p := repeat_str "/" sl +:+ Py.join "/" comps in
    if String.eqb p EmptyString then "." else p.

(** [os.path.abspath(path)] in working directory [cwd]. *)
Definition abspath (cwd path : string) : string :=
  if negb (isabs path) then normpath (join cwd path) else normpath path.

End PosixPath.

(** ** numpy: the array operations the module calls *)

Module Np.

(** Insertion into a sorted list without duplicates. *)
Fixpoint insert_unique (x : Z) (l : list Z) : list Z :=
  match l with
  | [] => [x]
  | y :: l' =>
      if x <? y then x :: y :: l'
      else if x =? y then y :: l'
      else y :: insert_unique x l'
  end.

(** [np.unique(a)]: the sorted distinct values of the flattened array. *)
Definition unique (a : list Z) : list Z :=
  fold_right insert_unique [] a.

(** [a > c], element-wise. *)
Definition gt (a : list Z) (c : Z) : list bool :=
  map (fun x => c <? x) a.

(** [np.abs] of a two-dimensional array. *)
Definition abs (a : list (list Q)) : list (list Q) :=
  map (map Qabs) a.

End Np.

(** ** The process state the module acts on *)

(** What the module asks of its collaborators, in call order. *)
Inductive event :=
| EvSystem (cmd : string)
| EvPopen (cmdline : list string)
| EvNibLoad (path : string)
| EvParseMats (path : string)
| EvEigsh (mkl_num_threads : option string) (k : Z) (which : string)
        (maxiter : Z)
| EvMapCentrality (metric : string) (values : list (list Q))
                (mask_file : string) (template_type : Z).

Record World := mkWorld {
environ : gmap string string;
cwd : string;
files_written : list string;
trace : list event
}.

Definition log (e : event) (w : World) : World :=
mkWorld (environ w) (cwd w) (files_written w) (trace w ++ [e]).

Definition write_file (path : string) (w : World) : World :=
mkWorld (environ w) (cwd w) (files_written w ++ [path]) (trace w).

(** Computations that read and change the process state and may raise. *)
Definition M (A : Type) : Type := World -> World * (Py.exn + A).

Definition ret {A} (a : A) : M A := fun w => (w, inr a).
Definition raise {A} (e : Py.exn) : M A := fun w => (w, inl e).
Definition bind {A B} (m : M A) (k : A -> M B) : M B :=
fun w => match m w with
         | (w', inl e) => (w', inl e)
         | (w', inr a) => k a w'
         end.
Definition tell (e : event) : M unit := fun w => (log e w, inr tt).
Definition lift {A} (r : Py.exn + A) : M A := fun w => (w, r).
Definition getenv (k : string) : M (option string) :=
fun w => (w, inr (environ w !! k)).

Declare Scope eff_scope.
Delimit Scope eff_scope with eff.
Notation "x <- m ;; k" := (bind m (fun x => k))
(at level 100, m at next level, right associativity) : eff_scope.
Notation "m ;; k" := (bind m (fun _ => k))
(at level 100, right associativity) : eff_scope.

(** Functions that raise but leave the process state alone. *)
Definition rbind {A B} (r : Py.exn + A) (k : A -> Py.exn + B) : Py.exn + B :=
match r with
| inl e => inl e
| inr a => k a
end.

Notation "x <-- r ;; k" := (rbind r (fun x => k))
(at level 100, r at next level, right associativity) : eff_scope.

Local Open Scope eff_scope.

(** ** os: subshells *)

Module Os.

(** The first [=] of a shell word splits a name from its value. *)
Fixpoint split_assign (s : string) : option (string * string) :=
  match s with
  | EmptyString => None
  | String c s' =>
      if Ascii.eqb c "=" then Some (EmptyString, s')
      else match split_assign s' with
           | Some (n, v) => Some (String c n, v)
           | None => None
           end
  end.

(** What a shell does to its own environment on [export NAME=VALUE];
    other commands are not interpreted and leave it as it is. The
    second component is the exit status. *)
Definition sh (cmd : string) (env : gmap string string)
    : gmap string string * Z :=
  if Py.startswith cmd "export " then
    match split_assign (String.substring 7 (String.length cmd - 7) cmd) with
    | Some (n, v) => (<[n := v]> env, 0)
    | None => (env, 0)
    end
  else (env, 0).

(** [os.system(cmd)]: the command runs in a subshell, a child process
    that starts from a copy of the environment; the caller gets the
    exit status, and the child's environment ends with the child. *)
Definition system (cmd : string) : M Z :=
  fun w =>
    let '(child_env, status) := sh cmd (environ w) in
    (log (EvSystem cmd) w, inr status).

End Os.

(** ** nipype: interfaces and the pipeline engine, as far as the module
  relies on them *)

Module Nipype.
Import Py.

Inductive trait_type := TStr | TFile | TFloat | TInt | TBool.

(** One declared trait of an input spec over the input object [I];
    [t_get] reads the attribute, [None] standing for [Undefined]. *)
Record trait (I : Type) := mkTrait {
  t_name : string;
  t_type : trait_type;
  t_argstr : option string;
  t_position : option Z;
  t_mandatory : bool;
  t_exists : bool;
  t_get : I -> option value
}.
Arguments mkTrait {I}.
Arguments t_name {I}.
Arguments t_type {I}.
Arguments t_argstr {I}.
Arguments t_position {I}.
Arguments t_mandatory {I}.
Arguments t_exists {I}.
Arguments t_get {I}.

Definition is_bool (t : trait_type) : bool :=
  match t with TBool => true | _ => false end.

Definition truthy (v : value) : bool :=
  match v with
  | VStr s => truthy_str s
  | VFloat q => negb (Qeq_bool q 0)
  | VInt z => truthy_int z
  | VBool b => b
  end.

Section CommandLine.
Context {I : Type}.

(** Modelled from the spec: the argument formatter of the command
    line base class (its source is not part of the module). A boolean
    flag without conversion is its flag when true and nothing when
    false; any other trait is its flag template applied to the
    value. *)
Definition format_arg (spec : trait I) (v : value) : option string :=
  match t_argstr spec with
  | None => None
  | Some a =>
      if is_bool (t_type spec) && negb (contains_char "%" a)
      then (if truthy v then Some a else None)
      else Some (percent a v)
  end.

Definition name_le (a b : trait I) : Prop :=
  Is_true (String.leb (t_name a) (t_name b)).

#[global] Instance name_le_dec (a b : trait I) : Decision (name_le a b).
Proof. unfold name_le. apply _. Defined.

Definition key_le (a b : Z * string) : Prop := a.1 <= b.1.

#[global] Instance key_le_dec (a b : Z * string) : Decision (key_le a b).
Proof. unfold key_le. apply _. Defined.

(** [sorted(d.items())] for a dict keyed by position. *)
Definition sorted_items (d : gmap Z string) : list (Z * string) :=
  merge_sort key_le (map_to_list d).

Definition has_argstr (t : trait I) : bool :=
  match t_argstr t with Some _ => true | None => false end.

(** The three accumulators of the argument builder: arguments with a
    position from the front, arguments without position, arguments
    with a position from the end. *)
Definition acc : Type := gmap Z string * list string * gmap Z string.

Definition parse_step (inputs : I) (a : acc) (spec : trait I) : acc :=
  let '(initial_args, all_args, final_args) := a in
  match t_get spec inputs with
  | None => a
  | Some v =>
      match format_arg spec v with
      | None => a
      | Some arg =>
          match t_position spec with
          | Some pos =>
              if 0 <=? pos
              then (<[pos := arg]> initial_args, all_args, final_args)
              else (initial_args, all_args, <[pos := arg]> final_args)
          | None => (initial_args, (all_args ++ [arg])%list, final_args)
          end
      end
  end.

(** Modelled from the spec: the argument builder of the command line
    base class (its source is not part of the module). Traits are
    visited by name; the result is the arguments with explicit
    positions in ascending order, then the arguments without
    position, then the trailing positional arguments. *)
Definition parse_inputs (spec : list (trait I)) (inputs : I)
    : list string :=
  let '(initial_args, all_args, final_args) :=
    fold_left (parse_step inputs)
              (merge_sort name_le (filter (fun t => has_argstr t) spec))
              (∅, [], ∅) in
  (sorted_items initial_args).*2 ++ all_args
    ++ (sorted_items final_args).*2.

(** Modelled from the spec: the check of mandatory inputs that the
    interface base class makes when it is run (its source is not part
    of the module). *)
Fixpoint check_mandatory_inputs (spec : list (trait I)) (inputs : I)
    : exn + unit :=
  match spec with
  | [] => inr tt
  | t :: rest =>
      if t_mandatory t && negb (bool_decide (is_Some (t_get t inputs)))
      then inl (ValueError
                  ("Interface requires a value for input " +:+ t_name t))
      else check_mandatory_inputs rest inputs
  end.

(** Starting the external process: the call is logged and the exit
    status comes from [exec], the behaviour of the binary. *)
Definition popen (exec : list string -> Z) (cmdline : list string)
    : M Z :=
  tell (EvPopen cmdline) ;; ret (exec cmdline).

(** Modelled from the spec: running a command line interface (its
    source is not part of the module): validation, then the external
    process, then the collection of the outputs. *)
Definition run {O} (exec : list string -> Z) (cmd : string)
    (spec : list (trait I)) (list_outputs : string -> I -> exn + O)
    (inputs : I) : M O :=
  lift (check_mandatory_inputs spec inputs) ;;
  rc <- popen exec (cmd :: parse_inputs spec inputs) ;;
  if rc =? 0 then
    fun w => lift (list_outputs (cwd w) inputs) w
  else raise (RuntimeError "Command failed").

End CommandLine.

(** One declared trait of an output spec: its name, and whether it is
    declared with [exists=True]. *)
Record out_trait := mkOut {
  o_name : string;
  o_exists : bool
}.

(** Interfaces a node can wrap. *)
Inductive iface (I : Type) :=
| CommandLine (cmd : string) (input_spec : list (trait I))
              (output_spec : list out_trait)
              (env : gmap string string) (inputs : I)
| IdentityInterface (fields : list string)
| Function (input_names output_names : list string) (function : string)
           (inputs : gmap string value).
Arguments CommandLine {I}.
Arguments IdentityInterface {I}.
Arguments Function {I}.

Record Interface (I : Type) := mkInterface {
  i_kind : iface I;
  i_num_threads : option Z;
  i_memory : option Z
}.
Arguments mkInterface {I}.
Arguments i_kind {I}.
Arguments i_num_threads {I}.
Arguments i_memory {I}.

Record Node (I : Type) := mkNode {
  n_name : string;
  n_interface : Interface I
}.
Arguments mkNode {I}.
Arguments n_name {I}.
Arguments n_interface {I}.

Record edge := mkEdge {
  e_src : string;
  e_src_field : string;
  e_dst : string;
  e_dst_field : string
}.

#[global] Instance edge_eq_dec : EqDecision edge.
Proof. solve_decision. Defined.

Record Workflow (I : Type) := mkWorkflow {
  w_name : string;
  w_nodes : list (Node I);
  w_edges : list edge
}.
Arguments mkWorkflow {I}.
Arguments w_name {I}.
Arguments w_nodes {I}.
Arguments w_edges {I}.

Section Engine.
Context {I : Type}.

Definition input_names (n : Node I) : list string :=
  match i_kind (n_interface n) with
  | CommandLine _ spec _ _ _ => map t_name spec
  | IdentityInterface fields => fields
  | Function ins _ _ _ => "function_str" :: ins
  end.

Definition output_names (n : Node I) : list string :=
  match i_kind (n_interface n) with
  | CommandLine _ _ outs _ _ => o_name <$> outs
  | IdentityInterface fields => fields
  | Function _ outs _ _ => outs
  end.

(** [pe.Workflow(name=...)]. *)
Definition new_workflow (name : string) : Workflow I :=
  mkWorkflow name [] [].

Definition has_node (wf : Workflow I) (n : Node I) : bool :=
  bool_decide (n_name n ∈ map n_name (w_nodes wf)).

Definition add_node (wf : Workflow I) (n : Node I) : Workflow I :=
  if has_node wf n then wf
  else mkWorkflow (w_name wf) (w_nodes wf ++ [n]) (w_edges wf).

Definition port_connected (wf : Workflow I) (dst field : string)
    : bool :=
  existsb (fun e => String.eqb (e_dst e) dst
                    && String.eqb (e_dst_field e) field)
          (w_edges wf).

(** [wf.connect(src, src_field, dst, dst_field)]: an input that is
    already fed, or a field that the node does not have, is refused;
    otherwise the nodes join the graph and the edge is added. *)
Definition connect (wf : Workflow I) (src : Node I) (src_field : string)
    (dst : Node I) (dst_field : string) : exn + Workflow I :=
  if port_connected wf (n_name dst) dst_field then
    inl (Exception "input is already connected")
  else if negb (bool_decide (dst_field ∈ input_names dst))
          || negb (bool_decide (src_field ∈ output_names src)) then
    inl (Exception "Some connections were not found")
  else
    let wf' := add_node (add_node wf src) dst in
    inr (mkWorkflow (w_name wf') (w_nodes wf')
           (w_edges wf'
              ++ [mkEdge (n_name src) src_field (n_name dst) dst_field])).

End Engine.

End Nipype.

(** ** The module: command descriptor *)

Import Py Nipype.

(** The attributes of [afniDegreeCentralityInputSpec]; [None] is
    [Undefined]. [args] is the one trait with an [argstr] that the class
    inherits from [CommandLineInputSpec]. *)
Record afniDegreeCentralityInputSpec := mkInputs {
  args : option string;
  prefix : option string;
  mask : option string;
  thresh : option Q;
  sparsity : option Q;
  out_1d : option string;
  polort : option Z;
  autoclip : option bool;
  automask : option bool;
  dataset : option string
}.

Definition no_inputs : afniDegreeCentralityInputSpec :=
  mkInputs None None None None None None None None None None.

(** The class variables of the input spec, in the order of the class
    body, after the inherited [args]. *)
Definition input_spec : list (trait afniDegreeCentralityInputSpec) :=
  [ mkTrait "args" TStr (Some "%s") None false false
      (fun i => VStr <$> args i);
    mkTrait "prefix" TStr (Some "-prefix %s") (Some 0) true true
      (fun i => VStr <$> prefix i);
    mkTrait "mask" TFile (Some "-mask %s") (Some 1) false true
      (fun i => VStr <$> mask i);
    mkTrait "thresh" TFloat (Some "-thresh %f") (Some 2) false false
      (fun i => VFloat <$> thresh i);
    mkTrait "sparsity" TFloat (Some "-sparsity %f") (Some 3) false false
      (fun i => VFloat <$> sparsity i);
    mkTrait "out_1d" TStr (Some "-out1D %s") (Some 4) false false
      (fun i => VStr <$> out_1d i);
    mkTrait "polort" TInt (Some "-polort %d") (Some 5) false false
      (fun i => VInt <$> polort i);
    mkTrait "autoclip" TBool (Some "-autoclip") None false false
      (fun i => VBool <$> autoclip i);
    mkTrait "automask" TBool (Some "-automask") None false false
      (fun i => VBool <$> automask i);
    mkTrait "dataset" TFile (Some "%s") (Some (-1)) false true
      (fun i => VStr <$> dataset i) ].

(** An attribute assignment [inputs.name = value]. *)
Inductive assignment :=
| Set_args (s : string)
| Set_prefix (s : string)
| Set_mask (s : string)
| Set_thresh (q : Q)
| Set_sparsity (q : Q)
| Set_out_1d (s : string)
| Set_polort (z : Z)
| Set_autoclip (b : bool)
| Set_automask (b : bool)
| Set_dataset (s : string).

Definition field_of (a : assignment) : string :=
  match a with
  | Set_args _ => "args"
  | Set_prefix _ => "prefix"
  | Set_mask _ => "mask"
  | Set_thresh _ => "thresh"
  | Set_sparsity _ => "sparsity"
  | Set_out_1d _ => "out_1d"
  | Set_polort _ => "polort"
  | Set_autoclip _ => "autoclip"
  | Set_automask _ => "automask"
  | Set_dataset _ => "dataset"
  end.

Section Assignment.

(** Which paths name a file, as the [File] traits declared with
    [exists=True] see it when they are assigned. *)
Variable file_exists : string -> bool.

Definition check_file (s : string) : exn + unit :=
  if file_exists s then inr tt
  else inl (TraitError ("file does not exist: " +:+ s)).

(** Validation of the value on assignment: only [mask] and [dataset] are
    [File] traits with [exists=True]; on the string trait [prefix] the
    [exists] metadata checks nothing. *)
Definition validate (a : assignment) : exn + unit :=
  match a with
  | Set_mask s => check_file s
  | Set_dataset s => check_file s
  | _ => inr tt
  end.

Definition assign (i : afniDegreeCentralityInputSpec) (a : assignment)
    : afniDegreeCentralityInputSpec :=
  match a with
  | Set_args s =>
      mkInputs (Some s) (prefix i) (mask i) (thresh i) (sparsity i)
        (out_1d i) (polort i) (autoclip i) (automask i) (dataset i)
  | Set_prefix s =>
      mkInputs (args i) (Some s) (mask i) (thresh i) (sparsity i)
        (out_1d i) (polort i) (autoclip i) (automask i) (dataset i)
  | Set_mask s =>
      mkInputs (args i) (prefix i) (Some s) (thresh i) (sparsity i)
        (out_1d i) (polort i) (autoclip i) (automask i) (dataset i)
  | Set_thresh q =>
      mkInputs (args i) (prefix i) (mask i) (Some q) (sparsity i)
        (out_1d i) (polort i) (autoclip i) (automask i) (dataset i)
  | Set_sparsity q =>
      mkInputs (args i) (prefix i) (mask i) (thresh i) (Some q)
        (out_1d i) (polort i) (autoclip i) (automask i) (dataset i)
  | Set_out_1d s =>
      mkInputs (args i) (prefix i) (mask i) (thresh i) (sparsity i)
        (Some s) (polort i) (autoclip i) (automask i) (dataset i)
  | Set_polort z =>
      mkInputs (args i) (prefix i) (mask i) (thresh i) (sparsity i)
        (out_1d i) (Some z) (autoclip i) (automask i) (dataset i)
  | Set_autoclip b =>
      mkInputs (args i) (prefix i) (mask i) (thresh i) (sparsity i)
        (out_1d i) (polort i) (Some b) (automask i) (dataset i)
  | Set_automask b =>
      mkInputs (args i) (prefix i) (mask i) (thresh i) (sparsity i)
        (out_1d i) (polort i) (autoclip i) (Some b) (dataset i)
  | Set_dataset s =>
      mkInputs (args i) (prefix i) (mask i) (thresh i) (sparsity i)
        (out_1d i) (polort i) (autoclip i) (automask i) (Some s)
  end.

(** [inputs.name = value]: the value is validated, then stored. *)
Definition setattr (i : afniDegreeCentralityInputSpec) (a : assignment)
    : exn + afniDegreeCentralityInputSpec :=
  _ <-- validate a ;; inr (assign i a).

(** A sequence of assignments, in the order the caller makes them. *)
Fixpoint supply (i : afniDegreeCentralityInputSpec) (l : list assignment)
    : exn + afniDegreeCentralityInputSpec :=
  match l with
  | [] => inr i
  | a :: l' => i' <-- setattr i a ;; supply i' l'
  end.

End Assignment.

(** ** The module: output resolver *)

(** A slot of the output spec. *)
Inductive tval :=
| Undefined
| Defined (path : string).

(** [afniDegreeCentralityOutputSpec]: the declared outputs,
    [degree_outfile] with [exists=True] and [one_d_outfile] without, and
    what [output_spec().get()] returns. *)
Definition output_spec : list out_trait :=
  [ mkOut "degree_outfile" true; mkOut "one_d_outfile" false ].

Definition output_spec_get : gmap string tval :=
  <["degree_outfile" := Undefined]> (<["one_d_outfile" := Undefined]> ∅).

(** [os.path.abspath] of a trait value; [Undefined] is not a string. *)
Definition os_path_abspath (cwd : string) (v : option string)
    : exn + string :=
  match v with
  | Some s => inr (PosixPath.abspath cwd s)
  | None =>
      inl (AttributeError "'_Undefined' object has no attribute 'startswith'")
  end.

(** The truth value of a string trait: [Undefined] and the empty string
    are false. *)
Definition truthy_trait (v : option string) : bool :=
  match v with
  | Some s => truthy_str s
  | None => false
  end.

Definition _cmd : string := "3dDegreeCentrality".

Definition _list_outputs (cwd : string)
    (inputs : afniDegreeCentralityInputSpec) : exn + gmap string tval :=
  let outputs := output_spec_get in
  p <-- os_path_abspath cwd (prefix inputs) ;;
  let outputs := <["degree_outfile" := Defined p]> outputs in
  if truthy_trait (out_1d inputs) then
    q <-- os_path_abspath cwd (out_1d inputs) ;;
    inr (<["one_d_outfile" := Defined q]> outputs)
  else inr outputs.

(** Modelled from the spec: the check the interface base class makes
    when it stores the listed outputs in the output spec (its source is
    not part of the module). An output declared with [exists=True] that
    is defined must name a file that exists, as [file_exists] sees the
    filesystem once the command has exited; the other outputs are taken
    as they are. *)
Fixpoint check_outputs (file_exists : string -> bool)
    (spec : list out_trait) (outputs : gmap string tval) : exn + unit :=
  match spec with
  | [] => inr tt
  | t :: rest =>
      match outputs !! o_name t with
      | Some (Defined path) =>
          if o_exists t && negb (file_exists path)
          then inl (FileNotFoundError
                      ("File not found for output " +:+ o_name t))
          else check_outputs file_exists rest outputs
      | _ => check_outputs file_exists rest outputs
      end
  end.

(** The collection of the outputs: [_list_outputs], then the check
    against the output spec. *)
Definition aggregate_outputs (file_exists : string -> bool) (cwd : string)
    (inputs : afniDegreeCentralityInputSpec) : exn + gmap string tval :=
  outputs <-- _list_outputs cwd inputs ;;
  _ <-- check_outputs file_exists output_spec outputs ;;
  inr outputs.

(** Running the [afniDegreeCentrality] interface. *)
Definition afniDegreeCentrality_run (file_exists : string -> bool)
    (exec : list string -> Z)
    (inputs : afniDegreeCentralityInputSpec) : M (gmap string tval) :=
  run exec _cmd input_spec (aggregate_outputs file_exists) inputs.

(** ** The module: eigenvector centrality calculator *)

(** A two-dimensional array of numbers. *)
Definition matrix : Type := list (list Q).

Section Eigen.

(** The collaborators of [calc_eigen_from_1d]: the image reader
    ([nib.load(f).get_data()], flattened), the two helpers of
    [CPAC.network_centrality.utils], and the sparse eigensolver, which
    sees the thread count the process environment holds for it. *)
Variable nib_load_get_data : string -> exn + list Z.
Variable utils_parse_and_return_mats : string -> exn + (matrix * matrix).
Variable linalg_eigsh :
  option string -> matrix -> Z -> string -> Z -> exn + (list Q * matrix).
Variable utils_map_centrality_matrix :
  string * matrix -> matrix -> string -> Z -> exn + string.

Definition nib_load (mask_file : string) : M (list Z) :=
  tell (EvNibLoad mask_file) ;; lift (nib_load_get_data mask_file).

Definition parse_and_return_mats (one_d_file : string)
    : M (matrix * matrix) :=
  tell (EvParseMats one_d_file) ;;
  lift (utils_parse_and_return_mats one_d_file).

Definition eigsh (a : matrix) (k : Z) (which : string) (maxiter : Z)
    : M (list Q * matrix) :=
  mkl <- getenv "MKL_NUM_THREADS" ;;
  tell (EvEigsh mkl k which maxiter) ;;
  lift (linalg_eigsh mkl a k which maxiter).

(** The helper that scatters the values into an image and writes it:
    the file it returns is the file it has written. *)
Definition map_centrality_matrix (centrality_tuple : string * matrix)
    (affine_matrix : matrix) (mask_file : string) (template_type : Z)
    : M string :=
  tell (EvMapCentrality centrality_tuple.1 centrality_tuple.2
          mask_file template_type) ;;
  out <- lift (utils_map_centrality_matrix centrality_tuple affine_matrix
                 mask_file template_type) ;;
  fun w => (write_file out w, inr out).

(** The test of the mask: [if len(np.unique(mask_img) > 2)]. *)
Definition template_type_of (mask_img : list Z) : Z :=
  if truthy_int (len (Np.gt (Np.unique mask_img) 2)) then 1 else 0.

Definition calc_eigen_from_1d (one_d_file : string) (num_threads : Z)
    (mask_file : string) : M string :=
  let num_eigs := 1 in
  let which_eigs := "LM" in
  let max_iter := 1000 in
  mask_img <- nib_load mask_file ;;
  let template_type := template_type_of mask_img in
  Os.system (percent "export MKL_NUM_THREADS=%d" (VInt num_threads)) ;;
  mats <- parse_and_return_mats one_d_file ;;
  let '(sim_matrix, affine_matrix) := mats in
  eig <- eigsh sim_matrix num_eigs which_eigs max_iter ;;
  let '(eig_val, eig_vect) := eig in
  let centrality_tuple := ("eigenvector_centrality", Np.abs eig_vect) in
  eigen_outfile <- map_centrality_matrix centrality_tuple affine_matrix
                     mask_file template_type ;;
  ret eigen_outfile.

End Eigen.

(** ** The module: workflow assembly *)

Definition set_resources {I} (n : Node I) (num_threads memory : Z)
    : Node I :=
  mkNode (n_name n)
    (mkInterface (i_kind (n_interface n)) (Some num_threads) (Some memory)).

(** [node.inputs.out_1d = v] on the command node. *)
Definition set_out_1d (n : Node afniDegreeCentralityInputSpec) (v : string)
    : Node afniDegreeCentralityInputSpec :=
  match i_kind (n_interface n) with
  | CommandLine cmd ispec ospec env i =>
      mkNode (n_name n)
        (mkInterface
           (CommandLine cmd ispec ospec env (assign i (Set_out_1d v)))
           (i_num_threads (n_interface n)) (i_memory (n_interface n)))
  | _ => n
  end.

(** [node.inputs.name = v] on a function node. *)
Definition set_function_input {I} (n : Node I) (name : string) (v : value)
    : Node I :=
  match i_kind (n_interface n) with
  | Function ins outs f inputs =>
      mkNode (n_name n)
        (mkInterface (Function ins outs f (<[name := v]> inputs))
           (i_num_threads (n_interface n)) (i_memory (n_interface n)))
  | _ => n
  end.

Definition create_network_centrality_wf (wf_name : string)
    (num_threads memory : Z) (run_eigen : bool)
    : exn + Workflow afniDegreeCentralityInputSpec :=
  let centrality_wf := new_workflow "afni_centrality" in
  let afni_centrality_node :=
    mkNode "afni_degree_centrality"
      (mkInterface
         (CommandLine _cmd input_spec output_spec
            (<["OMP_NUM_THREADS" := str (VInt num_threads)]> ∅) no_inputs)
         None None) in
  let afni_centrality_node :=
    set_resources afni_centrality_node num_threads memory in
  let output_node :=
    mkNode "output_node"
      (mkInterface
         (IdentityInterface ["degree_output"; "eigen_output"; "one_d_output"])
         None None) in
  st <-- (if run_eigen then
            let afni_centrality_node :=
              set_out_1d afni_centrality_node "similarity_matrix.1D" in
            let run_eigen_node :=
              mkNode "run_eigen_node"
                (mkInterface
                   (Function ["one_d_file"; "num_threads"; "mask_file"]
                      ["eigen_outfile"] "calc_eigen_from_1d" ∅)
                   None None) in
            let run_eigen_node :=
              set_function_input run_eigen_node "num_threads"
                (VInt num_threads) in
            let run_eigen_node :=
              set_resources run_eigen_node num_threads memory in
            centrality_wf <-- connect centrality_wf
                                afni_centrality_node "one_d_outfile"
                                run_eigen_node "one_d_file" ;;
            centrality_wf <-- connect centrality_wf
                                run_eigen_node "eigen_outfile"
                                output_node "eigen_output" ;;
            inr (centrality_wf, afni_centrality_node)
          else inr (centrality_wf, afni_centrality_node)) ;;
  let '(centrality_wf, afni_centrality_node) := st in
  centrality_wf <-- connect centrality_wf
                      afni_centrality_node "degree_outfile"
                      output_node "degree_output" ;;
  centrality_wf <-- connect centrality_wf
                      afni_centrality_node "one_d_outfile"
                      output_node "one_d_output" ;;
  inr centrality_wf.

(** ** Reading a trace *)

(** The requests made to the eigensolver: thread count found in the
    environment, number of pairs, selection, iteration bound. *)
Definition eigsh_requests (t : list event)
    : list (option string * Z * string * Z) :=
  omap (fun e => match e with
                 | EvEigsh mkl k which maxiter => Some (mkl, k, which, maxiter)
                 | _ => None
                 end) t.

(** The value arrays handed over to be written as an image, with the
    template type that goes with them. *)
Definition centrality_calls (t : list event) : list (matrix * Z) :=
  omap (fun e => match e with
                 | EvMapCentrality _ values _ ty => Some (values, ty)
                 | _ => None
                 end) t.

(** The external commands started. *)
Definition processes_started (t : list event) : list (list string) :=
  omap (fun e => match e with
                 | EvPopen cmdline => Some cmdline
                 | _ => None
                 end) t.

(** The shell command [calc_eigen_from_1d] passes to [os.system]. *)
Definition export_cmd (num_threads : Z) : string :=
  percent "export MKL_NUM_THREADS=%d" (VInt num_threads).

(** A process state to run examples in. *)
Definition w0 : World := mkWorld ∅ "/home/user" [] [].

(** The argument a trait of the input spec contributes, if any. *)
Definition arg_of (i : afniDegreeCentralityInputSpec) (name : string)
    : option string :=
  t ← List.find (fun t => String.eqb (t_name t) name) input_spec;
  v ← t_get t i;
  format_arg t v.

Definition position_of (name : string) : option Z :=
  t ← List.find (fun t => String.eqb (t_name t) name) input_spec;
  t_position t.

(** The traits bound to a position counted from the end. *)
Definition is_trailing (t : trait afniDegreeCentralityInputSpec) : bool :=
  match t_position t with
  | Some pos => pos <? 0
  | None => false
  end.

Definition trailing (spec : list (trait afniDegreeCentralityInputSpec))
    : list (string * option string) :=
  (fun t => (t_name t, t_argstr t)) <$> List.filter is_trailing spec.

(** A file name: no separator in it, and neither empty nor a dot
    component. *)
Definition plain_name (f : string) : bool :=
  negb (contains_char "/" f) && negb (String.eqb f EmptyString)
  && negb (String.eqb f ".") && negb (String.eqb f "..").

(** The argument builder seen in two steps: what each trait has to
    offer, and where an offer is put. *)
Definition entry {I} (inputs : I) (t : trait I) : option Z * option string :=
  (t_position t, t_get t inputs ≫= format_arg t).

Definition place (a : acc) (e : option Z * option string) : acc :=
  let '(initial_args, all_args, final_args) := a in
  match e.2 with
  | None => a
  | Some arg =>
      match e.1 with
      | Some pos =>
          if 0 <=? pos
          then ((<[pos := arg]> initial_args : gmap Z string),
                all_args, final_args)
          else (initial_args, all_args,
                (<[pos := arg]> final_args : gmap Z string))
      | None => (initial_args, all_args ++ [arg], final_args)
      end
  end.

(** ** Reading a workflow and a run *)

Definition node_named {I} (wf : Workflow I) (name : string)
    : option (Node I) :=
  List.find (fun n => String.eqb (n_name n) name) (w_nodes wf).



(** The inputs and the environment of the command node. *)
Definition command_inputs (wf : Workflow afniDegreeCentralityInputSpec)
    : option afniDegreeCentralityInputSpec :=
  n ← node_named wf "afni_degree_centrality";
  match i_kind (n_interface n) with
  | CommandLine _ _ _ _ i => Some i
  | _ => None
  end.

Definition command_environ (wf : Workflow afniDegreeCentralityInputSpec)
    : option (gmap string string) :=
  n ← node_named wf "afni_degree_centrality";
  match i_kind (n_interface n) with
  | CommandLine _ _ _ env _ => Some env
  | _ => None
  end.

(** The inputs set on a function node. *)
Definition function_inputs {I} (wf : Workflow I) (name : string)
    : option (gmap string value) :=
  n ← node_named wf name;
  match i_kind (n_interface n) with
  | Function _ _ _ inputs => Some inputs
  | _ => None
  end.

(** Name, thread count and memory of every node. *)
Definition resources {I} (wf : Workflow I)
    : list (string * option Z * option Z) :=
  (fun n => (n_name n, i_num_threads (n_interface n),
             i_memory (n_interface n))) <$> w_nodes wf.

(** A connection joins two nodes of the workflow on fields they have. *)
Definition edge_ok {I} (wf : Workflow I) (e : edge) : bool :=
  match node_named wf (e_src e), node_named wf (e_dst e) with
  | Some s, Some d =>
      bool_decide (e_src_field e ∈ output_names s)
      && bool_decide (e_dst_field e ∈ input_names d)
  | _, _ => false
  end.

Definition well_formed {I} (wf : Workflow I) : bool :=
  forallb (edge_ok wf) (w_edges wf)
  && bool_decide (NoDup ((fun e => (e_dst e, e_dst_field e)) <$> w_edges wf))
  && bool_decide (NoDup (n_name <$> w_nodes wf)).

(** The collaborator an event belongs to, in the order of the calls in
    [calc_eigen_from_1d]: image reader, shell, parser, solver, writer. *)
Definition event_kind (e : event) : nat :=
  match e with
  | EvNibLoad _ => 0
  | EvSystem _ => 1
  | EvParseMats _ => 2
  | EvEigsh _ _ _ _ => 3
  | EvMapCentrality _ _ _ _ => 4
  | EvPopen _ => 5
  end.

(** What a run has added to the trace. *)
Definition new_events (w w' : World) : list event :=
  drop (length (trace w)) (trace w').

(** The directory [/c1/.../cn]; the root for no component. *)
Definition root_dir (comps : list string) : string :=
  "/" +:+ Py.join "/" comps.

(** The names of the traits of the input spec. *)
Definition trait_names : list string := t_name <$> input_spec.

(** * Properties *)

(** ** Mask classification *)

Lemma unique_insert_nonempty x l : Np.insert_unique x l <> [].
Proof.
  destruct l as [|y l]; simpl; [discriminate|].
  destruct (x <? y); [discriminate|].
  destruct (x =? y); discriminate.
Qed.

Lemma unique_nonempty a : a <> [] -> Np.unique a <> [].
Proof.
  destruct a as [|x a]; [congruence|].
  intros _. simpl. apply unique_insert_nonempty.
Qed.

(** Whatever the labels are, an image with at least one voxel is taken
    for an atlas: the test measures the length of the comparison array,
    not the number of distinct labels. *)
Lemma template_type_of_nonempty mask_img :
  mask_img <> [] -> template_type_of mask_img = 1.
Proof.
  intros H. unfold template_type_of, truthy_int, len, Np.gt.
  rewrite length_map.
  pose proof (unique_nonempty _ H) as Hu.
  destruct (Np.unique mask_img); [congruence|]. reflexivity.
Qed.

(** C1, at a mask with exactly two distinct labels, both non-background:
    the image [1; 2; 2; 1] has the two distinct values 1 and 2, and
    [calc_eigen_from_1d] hands it over as template type 1 (atlas), not 0
    (binary mask). *)
Theorem two_label_mask_classified_as_atlas :
  Np.unique [1; 2; 2; 1] = [1; 2] /\
  template_type_of [1; 2; 2; 1] = 1 /\
  centrality_calls
    (trace (calc_eigen_from_1d
              (fun _ => inr [1; 2; 2; 1])
              (fun _ => inr ([[1#1; 1#2]; [1#2; 1#1]], []))
              (fun _ _ _ _ _ => inr ([3#2], [[1#1]; [1#1]]))
              (fun _ _ _ _ => inr "eigenvector_centrality.nii.gz")
              "similarity_matrix.1D" 1 "mask.nii.gz" w0).1)
  = [([[1#1]; [1#1]], 1)].
Proof. repeat split; vm_compute; reflexivity. Qed.

(** ** The eigenvector calculator, step by step *)

Lemma trace_log e w : trace (log e w) = trace w ++ [e].
Proof. reflexivity. Qed.

Lemma eigsh_requests_app t u :
  eigsh_requests (t ++ u) = eigsh_requests t ++ eigsh_requests u.
Proof. apply omap_app. Qed.

Lemma centrality_calls_app t u :
  centrality_calls (t ++ u) = centrality_calls t ++ centrality_calls u.
Proof. apply omap_app. Qed.

Lemma Qabs_rows_nonneg (a : matrix) :
  Forall (Forall (fun x => (0 <= x)%Q)) (Np.abs a).
Proof.
  unfold Np.abs. induction a as [|row a IH]; simpl; constructor; auto.
  clear. induction row as [|x row IH]; simpl; constructor; auto.
  apply Qabs_nonneg.
Qed.

Lemma Qabs_rows_pointwise (a : matrix) :
  Forall2 (Forall2 (fun y x => y = Qabs x)) (Np.abs a) a.
Proof.
  unfold Np.abs. induction a as [|row a IH]; simpl; constructor; auto.
  clear. induction row as [|x row IH]; simpl; constructor; auto.
Qed.

Section EigenFacts.

Variable nib_load_get_data : string -> exn + list Z.
Variable utils_parse_and_return_mats : string -> exn + (matrix * matrix).
Variable linalg_eigsh :
  option string -> matrix -> Z -> string -> Z -> exn + (list Q * matrix).
Variable utils_map_centrality_matrix :
  string * matrix -> matrix -> string -> Z -> exn + string.

(** The calculator over the collaborators of this section. *)

(** The whole run, one collaborator after the other. *)
Lemma calc_eigen_run one_d_file num_threads mask_file w :
  calc_eigen_from_1d nib_load_get_data utils_parse_and_return_mats
     linalg_eigsh utils_map_centrality_matrix
     one_d_file num_threads mask_file w =
  let w1 := log (EvNibLoad mask_file) w in
  match nib_load_get_data mask_file with
  | inl e => (w1, inl e)
  | inr mask_img =>
    let w2 := log (EvParseMats one_d_file)
                (log (EvSystem (export_cmd num_threads)) w1) in
    match utils_parse_and_return_mats one_d_file with
    | inl e => (w2, inl e)
    | inr (sim, aff) =>
      let mkl := environ w !! "MKL_NUM_THREADS" in
      let w3 := log (EvEigsh mkl 1 "LM" 1000) w2 in
      match linalg_eigsh mkl sim 1 "LM" 1000 with
      | inl e => (w3, inl e)
      | inr (eig_val, eig_vect) =>
        let ty := template_type_of mask_img in
        let w4 := log (EvMapCentrality "eigenvector_centrality"
                         (Np.abs eig_vect) mask_file ty) w3 in
        match utils_map_centrality_matrix
                ("eigenvector_centrality", Np.abs eig_vect) aff mask_file ty
        with
        | inl e => (w4, inl e)
        | inr out => (write_file out w4, inr out)
        end
      end
    end
  end.
Proof.
  unfold calc_eigen_from_1d, nib_load, parse_and_return_mats, eigsh,
    map_centrality_matrix, Os.system, bind, tell, lift, getenv, ret.
  cbn beta iota.
  destruct (nib_load_get_data mask_file) as [e|img]; [reflexivity|].
  destruct (Os.sh _ _) as [child st] eqn:Hsh.
  fold (export_cmd num_threads).
  destruct (utils_parse_and_return_mats one_d_file) as [e|[sim aff]];
    [reflexivity|].
  cbn [environ log].
  destruct (linalg_eigsh _ sim 1 "LM" 1000) as [e|[vals vect]];
    [reflexivity|].
  cbn [fst snd].
  destruct (utils_map_centrality_matrix _ aff mask_file _) as [e|out];
    reflexivity.
Qed.

(** Nothing in the run changes the environment of the process. *)
Lemma calc_eigen_environ one_d_file num_threads mask_file w :
  environ (calc_eigen_from_1d nib_load_get_data utils_parse_and_return_mats
     linalg_eigsh utils_map_centrality_matrix
     one_d_file num_threads mask_file w).1 = environ w.
Proof.
  rewrite calc_eigen_run. cbn zeta.
  destruct (nib_load_get_data mask_file) as [e|img]; [reflexivity|].
  destruct (utils_parse_and_return_mats one_d_file) as [e|[sim aff]];
    [reflexivity|].
  destruct (linalg_eigsh _ sim 1 "LM" 1000) as [e|[vals vect]];
    [reflexivity|].
  destruct (utils_map_centrality_matrix _ aff mask_file _) as [e|out];
    reflexivity.
Qed.

(** C2: when the solver does not converge on the parsed similarity
    matrix, the call ends in an exception (the solver's own, once the mask
    has been read), no file has been written and nothing has been handed
    over for writing. *)
Theorem no_output_when_solver_fails one_d_file num_threads mask_file w
    sim aff :
  utils_parse_and_return_mats one_d_file = inr (sim, aff) ->
  linalg_eigsh (environ w !! "MKL_NUM_THREADS") sim 1 "LM" 1000
    = inl ArpackNoConvergence ->
  (calc_eigen_from_1d nib_load_get_data utils_parse_and_return_mats
     linalg_eigsh utils_map_centrality_matrix
     one_d_file num_threads mask_file w).2 =
    match nib_load_get_data mask_file with
    | inl e => inl e
    | inr _ => inl ArpackNoConvergence
    end /\
  files_written (calc_eigen_from_1d nib_load_get_data utils_parse_and_return_mats
     linalg_eigsh utils_map_centrality_matrix
     one_d_file num_threads mask_file w).1
    = files_written w /\
  centrality_calls (trace (calc_eigen_from_1d nib_load_get_data utils_parse_and_return_mats
     linalg_eigsh utils_map_centrality_matrix
     one_d_file num_threads mask_file w).1)
    = centrality_calls (trace w).
Proof.
  intros Hparse Hsolve. rewrite calc_eigen_run. cbn zeta.
  destruct (nib_load_get_data mask_file) as [e|img].
  - cbn. rewrite centrality_calls_app, app_nil_r. auto.
  - rewrite Hparse, Hsolve. cbn.
    rewrite !centrality_calls_app. cbn. rewrite !app_nil_r. auto.
Qed.

(** C6: when the solver converges, the values handed over for the output
    image are the element-wise absolute values of the solver's vector,
    and none of them is negative. *)
Theorem centrality_values_nonneg one_d_file num_threads mask_file w
    img sim aff eig_val eig_vect :
  nib_load_get_data mask_file = inr img ->
  utils_parse_and_return_mats one_d_file = inr (sim, aff) ->
  linalg_eigsh (environ w !! "MKL_NUM_THREADS") sim 1 "LM" 1000
    = inr (eig_val, eig_vect) ->
  centrality_calls (trace (calc_eigen_from_1d nib_load_get_data utils_parse_and_return_mats
     linalg_eigsh utils_map_centrality_matrix
     one_d_file num_threads mask_file w).1)
    = centrality_calls (trace w)
      ++ [(Np.abs eig_vect, template_type_of img)] /\
  Forall2 (Forall2 (fun y x => y = Qabs x)) (Np.abs eig_vect) eig_vect /\
  Forall (Forall (fun x => (0 <= x)%Q)) (Np.abs eig_vect).
Proof.
  intros Hload Hparse Hsolve. rewrite calc_eigen_run. cbn zeta.
  rewrite Hload, Hparse, Hsolve.
  split; [|split; [apply Qabs_rows_pointwise | apply Qabs_rows_nonneg]].
  destruct (utils_map_centrality_matrix _ aff mask_file _) as [e|out];
    cbn; rewrite !centrality_calls_app; cbn;
    rewrite !app_nil_r; reflexivity.
Qed.

(** C7: an invocation asks the eigensolver at most once, namely when the
    mask and the similarity matrix have been read, and then for one pair
    ([k = 1]) of largest magnitude (['LM']) within 1000 iterations. *)
Theorem eigsh_request_one_LM_1000 one_d_file num_threads mask_file w :
  eigsh_requests (trace (calc_eigen_from_1d nib_load_get_data utils_parse_and_return_mats
     linalg_eigsh utils_map_centrality_matrix
     one_d_file num_threads mask_file w).1) =
  eigsh_requests (trace w) ++
  match nib_load_get_data mask_file,
        utils_parse_and_return_mats one_d_file with
  | inr _, inr _ => [(environ w !! "MKL_NUM_THREADS", 1, "LM", 1000)]
  | _, _ => []
  end.
Proof.
  rewrite calc_eigen_run. cbn zeta.
  destruct (nib_load_get_data mask_file) as [e|img].
  { cbn. rewrite eigsh_requests_app. reflexivity. }
  destruct (utils_parse_and_return_mats one_d_file) as [e|[sim aff]].
  { cbn. rewrite !eigsh_requests_app. cbn. rewrite !app_nil_r. reflexivity. }
  destruct (linalg_eigsh _ sim 1 "LM" 1000) as [e|[vals vect]].
  { cbn. rewrite !eigsh_requests_app. cbn. rewrite !app_nil_r. reflexivity. }
  destruct (utils_map_centrality_matrix _ aff mask_file _) as [e|out];
    cbn; rewrite !eigsh_requests_app; cbn;
    rewrite !app_nil_r; reflexivity.
Qed.

End EigenFacts.

(** A run of C2 on a solver that never converges. *)
Lemma no_output_when_solver_fails_witness :
  let run :=
    calc_eigen_from_1d
      (fun _ => inr [0; 1; 1; 0])
      (fun _ => inr ([[0#1; 1#1]; [1#1; 0#1]], []))
      (fun _ _ _ _ _ => inl ArpackNoConvergence)
      (fun _ _ _ _ => inr "eigenvector_centrality.nii.gz")
      "similarity_matrix.1D" 1 "mask.nii.gz" w0 in
  run.2 = inl ArpackNoConvergence /\
  files_written run.1 = [] /\
  centrality_calls (trace run.1) = [].
Proof.
  apply (no_output_when_solver_fails
           (fun _ => inr [0; 1; 1; 0])
           (fun _ => inr ([[0#1; 1#1]; [1#1; 0#1]], []))
           (fun _ _ _ _ _ => inl ArpackNoConvergence)
           (fun _ _ _ _ => inr "eigenvector_centrality.nii.gz")
           "similarity_matrix.1D" 1 "mask.nii.gz" w0
           [[0#1; 1#1]; [1#1; 0#1]] []);
    reflexivity.
Defined.

(** A run of C6 on a solver that returns a vector of mixed signs. *)
Lemma centrality_values_nonneg_witness :
  let run :=
    calc_eigen_from_1d
      (fun _ => inr [0; 1; 1; 0])
      (fun _ => inr ([[0#1; 1#1]; [1#1; 0#1]], []))
      (fun _ _ _ _ _ => inr ([1#1], [[-1#2]; [1#2]]))
      (fun _ _ _ _ => inr "eigenvector_centrality.nii.gz")
      "similarity_matrix.1D" 1 "mask.nii.gz" w0 in
  centrality_calls (trace run.1)
    = [] ++ [(Np.abs [[-1#2]; [1#2]], template_type_of [0; 1; 1; 0])] /\
  Forall2 (Forall2 (fun y x => y = Qabs x))
    (Np.abs [[-1#2]; [1#2]]) [[-1#2]; [1#2]] /\
  Forall (Forall (fun x => (0 <= x)%Q)) (Np.abs [[-1#2]; [1#2]]).
Proof.
  apply (centrality_values_nonneg
           (fun _ => inr [0; 1; 1; 0])
           (fun _ => inr ([[0#1; 1#1]; [1#1; 0#1]], []))
           (fun _ _ _ _ _ => inr ([1#1], [[-1#2]; [1#2]]))
           (fun _ _ _ _ => inr "eigenvector_centrality.nii.gz")
           "similarity_matrix.1D" 1 "mask.nii.gz" w0
           [0; 1; 1; 0] [[0#1; 1#1]; [1#1; 0#1]] [] [1#1] [[-1#2]; [1#2]]);
    reflexivity.
Defined.

(** ** The thread-count hint *)

(** C9, at [num_threads = 4] in a process whose environment does not
    mention MKL_NUM_THREADS: the subshell that [os.system] starts does set
    the variable, in its own environment; the solver is then called in a
    process environment that still does not have it, and the environment
    is the same after the call. *)
Theorem mkl_hint_lost_in_subshell :
  let run :=
    calc_eigen_from_1d
      (fun _ => inr [0; 1; 1; 0])
      (fun _ => inr ([[0#1; 1#1]; [1#1; 0#1]], []))
      (fun _ _ _ _ _ => inr ([1#1], [[1#2]; [1#2]]))
      (fun _ _ _ _ => inr "eigenvector_centrality.nii.gz")
      "similarity_matrix.1D" 4 "mask.nii.gz" w0 in
  export_cmd 4 = "export MKL_NUM_THREADS=4" /\
  (Os.sh (export_cmd 4) (environ w0)).1 !! "MKL_NUM_THREADS" = Some "4" /\
  eigsh_requests (trace run.1) = [(None, 1, "LM", 1000)] /\
  environ run.1 !! "MKL_NUM_THREADS" = None.
Proof. repeat split; vm_compute; reflexivity. Qed.

(** ** Validation of the command descriptor *)

(** C8: without a prefix the interface raises a [ValueError] and the
    process state is as before; in particular no external command has
    been started. *)
Theorem missing_prefix_rejected (file_exists : string -> bool)
    (exec : list string -> Z)
    (inputs : afniDegreeCentralityInputSpec) (w : World) :
  prefix inputs = None ->
  exists msg,
    afniDegreeCentrality_run file_exists exec inputs w
      = (w, inl (ValueError msg)) /\
    processes_started
      (trace (afniDegreeCentrality_run file_exists exec inputs w).1)
      = processes_started (trace w).
Proof.
  intros H. eexists.
  unfold afniDegreeCentrality_run, run, bind, lift.
  unfold input_spec. cbn [check_mandatory_inputs t_mandatory t_get andb].
  rewrite H. cbn. split; reflexivity.
Qed.

Lemma missing_prefix_rejected_witness :
  exists msg,
    afniDegreeCentrality_run (fun _ => true) (fun _ => 0) no_inputs w0
      = (w0, inl (ValueError msg)) /\
    processes_started
      (trace (afniDegreeCentrality_run (fun _ => true) (fun _ => 0)
                no_inputs w0).1)
      = processes_started (trace w0).
Proof.
  apply (missing_prefix_rejected (fun _ => true) (fun _ => 0) no_inputs w0).
  reflexivity.
Defined.

(** ** Workflow assembly *)

(** C10: whatever the arguments, the workflow is built and is named
    [afni_centrality]; the [wf_name] argument does not enter the result. *)
Theorem workflow_name_fixed (wf_name : string) (num_threads memory : Z)
    (run_eigen : bool) :
  (exists wf,
     create_network_centrality_wf wf_name num_threads memory run_eigen
       = inr wf /\
     w_name wf = "afni_centrality") /\
  create_network_centrality_wf wf_name num_threads memory run_eigen
    = create_network_centrality_wf "network_centrality" num_threads memory
        run_eigen.
Proof.
  split; [|reflexivity].
  destruct run_eigen; eexists; split; reflexivity.
Qed.

(** ** Paths *)

Lemma str_app_assoc (a b c : string) : (a +:+ b) +:+ c = a +:+ (b +:+ c).
Proof.
  induction a as [|x a IH]; [reflexivity|].
  change (String x ((a +:+ b) +:+ c) = String x (a +:+ (b +:+ c))).
  now rewrite IH.
Qed.

Lemma str_app_cons c (a b : string) : String c a +:+ b = String c (a +:+ b).
Proof. reflexivity. Qed.

Lemma prefix_empty s : String.prefix EmptyString s = true.
Proof. destruct s; reflexivity. Qed.

Lemma startswith_slash s : startswith (String "/" s) "/" = true.
Proof.
  unfold startswith. cbn [String.prefix].
  destruct (ascii_dec "/" "/"); [apply prefix_empty|congruence].
Qed.

Lemma isabs_head c s s' :
  PosixPath.isabs (String c s) = PosixPath.isabs (String c s').
Proof.
  unfold PosixPath.isabs, startswith. cbn [String.prefix].
  destruct (ascii_dec "/" c); [now rewrite !prefix_empty|reflexivity].
Qed.

Lemma startswith_app (a b p : string) :
  startswith a p = true -> startswith (a +:+ b) p = true.
Proof.
  unfold startswith. revert a.
  induction p as [|x p IH]; intros a H; [apply prefix_empty|].
  destruct a as [|y a]; [discriminate|].
  rewrite str_app_cons. simpl in *.
  destruct (ascii_dec x y); [|discriminate].
  apply IH, H.
Qed.

Lemma endswith_eq (s suf : string) :
  endswith s suf =
  if String.eqb s suf then true
  else match s with
       | EmptyString => false
       | String _ s' => endswith s' suf
       end.
Proof. destruct s; reflexivity. Qed.

Lemma endswith_inv (s suf : string) :
  endswith s suf = true -> exists a, s = a +:+ suf.
Proof.
  induction s as [|c s IH]; intros H; rewrite endswith_eq in H.
  - destruct (String.eqb_spec EmptyString suf) as [E|Hne];
      [exists EmptyString; exact E|discriminate].
  - destruct (String.eqb_spec (String c s) suf) as [E|Hne];
      [exists EmptyString; exact E|].
    destruct (IH H) as [a ->]. now exists (String c a).
Qed.

Lemma split_nonempty sep s : split sep s <> [].
Proof.
  destruct s as [|c s]; simpl; [discriminate|].
  destruct (Ascii.eqb c sep); [discriminate|].
  destruct (split sep s); discriminate.
Qed.

Lemma split_plain sep f : contains_char sep f = false -> split sep f = [f].
Proof.
  induction f as [|c f IH]; simpl; [reflexivity|].
  intros H. apply orb_false_iff in H as [Hc Hf].
  rewrite Hc, (IH Hf). reflexivity.
Qed.

Lemma split_app_last sep a f :
  contains_char sep f = false ->
  split sep (a +:+ String sep EmptyString +:+ f) = split sep a ++ [f].
Proof.
  intros Hf. change (String sep EmptyString +:+ f) with (String sep f).
  induction a as [|c a IH]; simpl.
  - rewrite Ascii.eqb_refl, (split_plain _ _ Hf). reflexivity.
  - rewrite IH. destruct (Ascii.eqb c sep); [reflexivity|].
    pose proof (split_nonempty sep a) as Hne.
    destruct (split sep a); [congruence|reflexivity].
Qed.

Lemma join_app_last sep l f :
  Py.join sep (l ++ [f]) =
  match l with
  | [] => f
  | _ => Py.join sep l +:+ sep +:+ f
  end.
Proof.
  induction l as [|x l IH]; [reflexivity|].
  destruct l as [|y l]; [reflexivity|].
  change (Py.join sep ((x :: y :: l) ++ [f]))
    with (x +:+ sep +:+ Py.join sep ((y :: l) ++ [f])).
  rewrite IH.
  change (Py.join sep (x :: y :: l)) with (x +:+ sep +:+ Py.join sep (y :: l)).
  now rewrite !str_app_assoc.
Qed.

Lemma plain_name_sep f : plain_name f = true -> contains_char "/" f = false.
Proof.
  unfold plain_name. intros H.
  repeat (apply andb_true_iff in H as [H _]).
  now apply negb_true_iff in H.
Qed.

Lemma plain_name_not_abs f : plain_name f = true -> PosixPath.isabs f = false.
Proof.
  intros H. apply plain_name_sep in H.
  unfold PosixPath.isabs, startswith.
  destruct f as [|c f]; [reflexivity|].
  cbn [contains_char] in H. apply orb_false_iff in H as [H _].
  cbn [String.prefix].
  destruct (ascii_dec "/" c) as [<-|]; [discriminate|reflexivity].
Qed.

Lemma normpath_step_plain sl comps f :
  plain_name f = true -> PosixPath.normpath_step sl comps f = comps ++ [f].
Proof.
  unfold plain_name, PosixPath.normpath_step. intros H.
  repeat (apply andb_true_iff in H as [H ?]).
  repeat match goal with
         | H : negb _ = true |- _ => apply negb_true_iff in H
         end.
  repeat match goal with H : String.eqb _ _ = false |- _ => rewrite H end.
  reflexivity.
Qed.

Lemma normpath_dir_name a f :
  PosixPath.isabs a = true \/ a = EmptyString -> plain_name f = true ->
  exists dir,
    PosixPath.normpath (a +:+ "/" +:+ f) = dir +:+ "/" +:+ f /\
    PosixPath.isabs (PosixPath.normpath (a +:+ "/" +:+ f)) = true.
Proof.
  intros Ha Hf. unfold PosixPath.normpath.
  assert (Habs : startswith (a +:+ "/" +:+ f) "/" = true).
  { destruct Ha as [Ha| ->]; [|apply startswith_slash].
    apply startswith_app, Ha. }
  destruct (String.eqb_spec (a +:+ "/" +:+ f) EmptyString) as [E|_].
  { rewrite E in Habs. discriminate. }
  cbn zeta.
  pose proof (plain_name_sep _ Hf) as Hsep.
  rewrite (split_app_last _ _ _ Hsep), fold_left_app. cbn [fold_left].
  rewrite (normpath_step_plain _ _ _ Hf), join_app_last.
  set (sl := PosixPath.initial_slashes (a +:+ "/" +:+ f)).
  assert (Hsl : sl = 1%nat \/ sl = 2%nat).
  { subst sl. unfold PosixPath.initial_slashes. rewrite Habs.
    destruct (_ && _); auto. }
  set (comps := fold_left _ _ _).
  assert (Hdir : exists dir,
             repeat_str "/" sl +:+
               match comps with
               | [] => f
               | _ :: _ => Py.join "/" comps +:+ "/" +:+ f
               end = dir +:+ "/" +:+ f /\
             PosixPath.isabs (dir +:+ "/" +:+ f) = true).
  { destruct comps as [|c comps'].
    - destruct Hsl as [-> | ->]; [exists EmptyString|exists "/"];
        (split; [reflexivity|apply startswith_slash]).
    - exists (repeat_str "/" sl +:+ Py.join "/" (c :: comps')).
      split; [now rewrite !str_app_assoc|].
      destruct Hsl as [-> | ->]; apply startswith_slash. }
  destruct Hdir as (dir & -> & Hd).
  destruct (String.eqb_spec (dir +:+ "/" +:+ f) EmptyString) as [E|_].
  { rewrite E in Hd. discriminate. }
  exists dir. split; [reflexivity|exact Hd].
Qed.

Lemma abspath_plain_name cwd f :
  PosixPath.isabs cwd = true -> plain_name f = true ->
  exists dir,
    PosixPath.abspath cwd f = dir +:+ "/" +:+ f /\
    PosixPath.isabs (PosixPath.abspath cwd f) = true.
Proof.
  intros Hcwd Hf. unfold PosixPath.abspath, PosixPath.join.
  rewrite (plain_name_not_abs _ Hf). fold (PosixPath.isabs f).
  rewrite (plain_name_not_abs _ Hf). cbn [negb].
  destruct (String.eqb_spec cwd EmptyString) as [->|_]; [discriminate|].
  cbn [orb].
  destruct (endswith cwd "/") eqn:He.
  - destruct (endswith_inv _ _ He) as [a ->].
    rewrite str_app_assoc.
    apply normpath_dir_name; [|exact Hf].
    destruct a as [|c a]; [now right|left].
    rewrite str_app_cons in Hcwd. now rewrite (isabs_head c a (a +:+ "/")).
  - apply normpath_dir_name; [now left|exact Hf].
Qed.

(** C4: with the prefix set and an absolute working directory, the
    outputs are resolved; [degree_outfile] is the absolute path of the
    prefix; [one_d_outfile] stays undefined when [out_1d] is not set, and
    with [out_1d = "similarity_matrix.1D"] it is an absolute path whose
    last component is that file name. *)
Theorem list_outputs_slots (cwd : string)
    (inputs : afniDegreeCentralityInputSpec) (p : string) :
  PosixPath.isabs cwd = true ->
  prefix inputs = Some p ->
  exists outputs,
    _list_outputs cwd inputs = inr outputs /\
    outputs !! "degree_outfile" = Some (Defined (PosixPath.abspath cwd p)) /\
    (out_1d inputs = None ->
     outputs !! "one_d_outfile" = Some Undefined) /\
    (out_1d inputs = Some "similarity_matrix.1D" ->
     exists dir,
       outputs !! "one_d_outfile"
         = Some (Defined (dir +:+ "/" +:+ "similarity_matrix.1D")) /\
       PosixPath.isabs (dir +:+ "/" +:+ "similarity_matrix.1D") = true).
Proof.
  intros Hcwd Hp. unfold _list_outputs. rewrite Hp. cbn [os_path_abspath rbind].
  destruct (out_1d inputs) as [s|] eqn:Ho; cbn [truthy_trait].
  - destruct (truthy_str s) eqn:Ht; cbn [os_path_abspath rbind];
      eexists; (split; [reflexivity|]).
    + split; [|split; [discriminate|]].
      { rewrite lookup_insert_ne by discriminate. apply lookup_insert_eq. }
      intros [= ->].
      destruct (abspath_plain_name cwd "similarity_matrix.1D" Hcwd eq_refl)
        as (dir & E & Habs).
      exists dir. rewrite lookup_insert_eq, E. split; [reflexivity|].
      now rewrite <- E.
    + split; [apply lookup_insert_eq|]. split; [discriminate|].
      intros [= ->]. discriminate.
  - eexists. split; [reflexivity|]. split; [apply lookup_insert_eq|].
    split; [|discriminate]. intros _.
    rewrite lookup_insert_ne by discriminate.
    unfold output_spec_get.
    rewrite lookup_insert_ne by discriminate. apply lookup_insert_eq.
Qed.

Lemma list_outputs_slots_witness :
  exists outputs,
    _list_outputs "/home/user"
      (assign (assign no_inputs (Set_prefix "centrality"))
         (Set_out_1d "similarity_matrix.1D")) = inr outputs /\
    outputs !! "degree_outfile"
      = Some (Defined (PosixPath.abspath "/home/user" "centrality")) /\
    (Some "similarity_matrix.1D" = None ->
     outputs !! "one_d_outfile" = Some Undefined) /\
    (Some "similarity_matrix.1D" = Some "similarity_matrix.1D" ->
     exists dir,
       outputs !! "one_d_outfile"
         = Some (Defined (dir +:+ "/" +:+ "similarity_matrix.1D")) /\
       PosixPath.isabs (dir +:+ "/" +:+ "similarity_matrix.1D") = true).
Proof.
  apply (list_outputs_slots "/home/user"
           (assign (assign no_inputs (Set_prefix "centrality"))
              (Set_out_1d "similarity_matrix.1D")) "centrality");
    reflexivity.
Defined.

(** ** The argument list of the command *)

Lemma parse_step_place {I} (inputs : I) (a : acc) (t : trait I) :
  parse_step inputs a t = place a (entry inputs t).
Proof.
  unfold parse_step, place, entry. destruct a as [[ini all] fin]. cbn.
  destruct (t_get t inputs) as [v|]; cbn; [|reflexivity].
  destruct (format_arg t v); reflexivity.
Qed.

Lemma fold_parse_step {I} (inputs : I) (ts : list (trait I)) (a : acc) :
  fold_left (parse_step inputs) ts a
  = fold_left place (entry inputs <$> ts) a.
Proof.
  revert a. induction ts as [|t ts IH]; intros a; [reflexivity|].
  cbn. rewrite parse_step_place. apply IH.
Qed.

(** The traits in the order the builder visits them, by name. *)
Lemma sorted_entries (i : afniDegreeCentralityInputSpec) :
  entry i <$> merge_sort name_le (filter (fun t => has_argstr t) input_spec)
  = [ (None, arg_of i "args"); (None, arg_of i "autoclip");
      (None, arg_of i "automask"); (Some (-1), arg_of i "dataset");
      (Some 1, arg_of i "mask"); (Some 4, arg_of i "out_1d");
      (Some 5, arg_of i "polort"); (Some 0, arg_of i "prefix");
      (Some 3, arg_of i "sparsity"); (Some 2, arg_of i "thresh") ].
Proof. reflexivity. Qed.

(** Whichever of the ten arguments are there, they come out by position:
    0 to 5, then the ones without position, then position -1. *)
Lemma assemble_positions (o_args o_autoclip o_automask o_dataset o_mask
    o_out_1d o_polort o_prefix o_sparsity o_thresh : option string) :
  (let '(initial_args, all_args, final_args) :=
     fold_left place
       [ (None, o_args); (None, o_autoclip); (None, o_automask);
         (Some (-1), o_dataset); (Some 1, o_mask); (Some 4, o_out_1d);
         (Some 5, o_polort); (Some 0, o_prefix); (Some 3, o_sparsity);
         (Some 2, o_thresh) ] (∅, [], ∅) in
   (sorted_items initial_args).*2 ++ all_args ++ (sorted_items final_args).*2)
  = omap id [o_prefix; o_mask; o_thresh; o_sparsity; o_out_1d; o_polort]
    ++ omap id [o_args; o_autoclip; o_automask]
    ++ omap id [o_dataset].
Proof.
  destruct o_args, o_autoclip, o_automask, o_dataset, o_mask.
  all: destruct o_out_1d, o_polort, o_prefix, o_sparsity, o_thresh.
  all: reflexivity.
Qed.

Lemma str_app_nil_r (s : string) : s +:+ EmptyString = s.
Proof.
  induction s as [|c s IH]; [reflexivity|].
  change (String c (s +:+ EmptyString) = String c s). now rewrite IH.
Qed.

Lemma parse_inputs_shape (i : afniDegreeCentralityInputSpec) :
  parse_inputs input_spec i =
  omap (arg_of i) ["prefix"; "mask"; "thresh"; "sparsity"; "out_1d"; "polort"]
  ++ omap (arg_of i) ["args"; "autoclip"; "automask"]
  ++ omap (arg_of i) ["dataset"].
Proof.
  unfold parse_inputs. rewrite fold_parse_step, sorted_entries.
  apply assemble_positions.
Qed.

Lemma arg_of_prefix i p :
  prefix i = Some p -> arg_of i "prefix" = Some ("-prefix " +:+ p).
Proof.
  intros H. unfold arg_of. cbn. rewrite H. cbn.
  unfold format_arg. cbn. now rewrite str_app_nil_r.
Qed.

Lemma arg_of_dataset i d : dataset i = Some d -> arg_of i "dataset" = Some d.
Proof.
  intros H. unfold arg_of. cbn. rewrite H. cbn.
  unfold format_arg. cbn. now rewrite str_app_nil_r.
Qed.

Section SupplyOrder.

Variable file_exists : string -> bool.

Lemma assign_swap i a b :
  field_of a <> field_of b ->
  assign (assign i a) b = assign (assign i b) a.
Proof. destruct a, b; intros Hne; solve [reflexivity | now elim Hne]. Qed.

Lemma supply_cons i a l :
  supply file_exists i (a :: l) =
  match validate file_exists a with
  | inl e => inl e
  | inr _ => supply file_exists (assign i a) l
  end.
Proof.
  cbn. unfold setattr. destruct (validate file_exists a); reflexivity.
Qed.

(** Assignments to different attributes can be made in any order. *)
Lemma supply_Permutation l l' :
  l ≡ₚ l' -> NoDup (field_of <$> l) ->
  forall i j, supply file_exists i l = inr j -> supply file_exists i l' = inr j.
Proof.
  induction 1 as [|x l l' Hp IH|x y l|l l' l'' Hp1 IH1 Hp2 IH2];
    intros Hnd i j Hs.
  - exact Hs.
  - rewrite supply_cons in *.
    destruct (validate file_exists x); [discriminate|].
    apply IH; [|exact Hs]. now inversion Hnd.
  - rewrite !supply_cons in Hs. rewrite !supply_cons.
    destruct (validate file_exists y); [discriminate|].
    destruct (validate file_exists x); [discriminate|].
    rewrite assign_swap; [exact Hs|].
    cbn in Hnd. inversion Hnd as [|? ? Hin _]. intros E. apply Hin.
    rewrite <- E. left.
  - apply IH2; [now rewrite <- Hp1|]. now apply IH1.
Qed.

End SupplyOrder.

(** C5: for inputs assigned in any order, each attribute once, with the
    prefix and the dataset among them, the argument list is: the flags of
    [prefix], [mask], [thresh], [sparsity], [out_1d], [polort] (positions
    0 to 5) as far as they are set, in that order and starting with
    [-prefix]; then the arguments without position; then the dataset
    path, last. The same assignments in another order give the same
    inputs, hence the same list; [dataset] is the only trait bound to a
    position counted from the end, and its template has no flag. *)
Theorem cmdline_argument_order (file_exists : string -> bool)
    (l l' : list assignment) (i : afniDegreeCentralityInputSpec)
    (p d : string) :
  supply file_exists no_inputs l = inr i ->
  prefix i = Some p -> dataset i = Some d ->
  l ≡ₚ l' -> NoDup (field_of <$> l) ->
  supply file_exists no_inputs l' = inr i /\
  parse_inputs input_spec i =
    omap (arg_of i)
      ["prefix"; "mask"; "thresh"; "sparsity"; "out_1d"; "polort"]
    ++ omap (arg_of i) ["args"; "autoclip"; "automask"]
    ++ [d] /\
  arg_of i "prefix" = Some ("-prefix " +:+ p) /\
  position_of
    <$> ["prefix"; "mask"; "thresh"; "sparsity"; "out_1d"; "polort"]
    = Some <$> [0; 1; 2; 3; 4; 5] /\
  trailing input_spec = [("dataset", Some "%s")].
Proof.
  intros Hs Hp Hd Hperm Hnd. split; [|split; [|split; [|split]]].
  - eapply supply_Permutation; eauto.
  - rewrite parse_inputs_shape. do 2 f_equal.
    cbn [omap list_omap]. now rewrite (arg_of_dataset _ _ Hd).
  - now apply arg_of_prefix.
  - reflexivity.
  - reflexivity.
Qed.

(** The assignments of C5 made in one order and in the reverse order. *)
Lemma cmdline_argument_order_witness :
  let i := mkInputs None (Some "centrality") (Some "mask.nii.gz")
             (Some (3#5)) None None (Some 2) (Some true) None
             (Some "func.nii.gz") in
  supply (fun _ => true) no_inputs
    [ Set_autoclip true; Set_polort 2; Set_thresh (3#5);
      Set_mask "mask.nii.gz"; Set_prefix "centrality";
      Set_dataset "func.nii.gz" ] = inr i /\
  parse_inputs input_spec i =
    omap (arg_of i)
      ["prefix"; "mask"; "thresh"; "sparsity"; "out_1d"; "polort"]
    ++ omap (arg_of i) ["args"; "autoclip"; "automask"]
    ++ ["func.nii.gz"] /\
  arg_of i "prefix" = Some ("-prefix " +:+ "centrality") /\
  position_of
    <$> ["prefix"; "mask"; "thresh"; "sparsity"; "out_1d"; "polort"]
    = Some <$> [0; 1; 2; 3; 4; 5] /\
  trailing input_spec = [("dataset", Some "%s")].
Proof.
  apply (cmdline_argument_order (fun _ => true)
           [ Set_dataset "func.nii.gz"; Set_prefix "centrality";
             Set_mask "mask.nii.gz"; Set_thresh (3#5); Set_polort 2;
             Set_autoclip true ]
           (reverse
              [ Set_dataset "func.nii.gz"; Set_prefix "centrality";
                Set_mask "mask.nii.gz"; Set_thresh (3#5); Set_polort 2;
                Set_autoclip true ])
           (mkInputs None (Some "centrality") (Some "mask.nii.gz")
             (Some (3#5)) None None (Some 2) (Some true) None
             (Some "func.nii.gz")) "centrality" "func.nii.gz").
  - reflexivity.
  - reflexivity.
  - reflexivity.
  - symmetry. apply reverse_Permutation.
  - apply (bool_decide_unpack _). vm_compute. reflexivity.
Defined.

(** * Further properties *)

(** ** The eigenvector calculator: order and reach of its effects *)

Lemma new_events_app w w' l :
  trace w' = trace w ++ l -> new_events w w' = l.
Proof. intros H. unfold new_events. rewrite H. apply drop_app_length. Qed.

Lemma eigsh_requests_system c : eigsh_requests [EvSystem c] = [].
Proof. reflexivity. Qed.

Lemma centrality_calls_system c : centrality_calls [EvSystem c] = [].
Proof. reflexivity. Qed.

(** X1: the test of the mask tells only an empty image from a non-empty
    one: every image with at least one voxel is template type 1, the
    empty image is template type 0, whatever labels the voxels hold. *)
Theorem template_type_of_cases (mask_img : list Z) :
  template_type_of mask_img =
  match mask_img with
  | [] => 0
  | _ :: _ => 1
  end.
Proof.
  destruct mask_img as [|x l]; [reflexivity|].
  apply template_type_of_nonempty. discriminate.
Qed.

Section EigenEffects.

Variable nib_load_get_data : string -> exn + list Z.
Variable utils_parse_and_return_mats : string -> exn + (matrix * matrix).
Variable linalg_eigsh :
  option string -> matrix -> Z -> string -> Z -> exn + (list Q * matrix).
Variable utils_map_centrality_matrix :
  string * matrix -> matrix -> string -> Z -> exn + string.

(** X2: when the mask cannot be read, its exception is the outcome and
    the reader is the only collaborator that has been called: no
    subshell, no parsing, no solver, no output. *)
Theorem mask_unreadable_stops_everything one_d_file num_threads mask_file
    w e :
  nib_load_get_data mask_file = inl e ->
  calc_eigen_from_1d nib_load_get_data utils_parse_and_return_mats
    linalg_eigsh utils_map_centrality_matrix
    one_d_file num_threads mask_file w
  = (log (EvNibLoad mask_file) w, inl e).
Proof. intros H. rewrite calc_eigen_run. cbn zeta. now rewrite H. Qed.

(** X3: when the similarity matrix file cannot be parsed, its exception
    is the outcome; by then the mask has been read and the export command
    has been run, but the solver is never asked and nothing is handed
    over for writing. *)
Theorem unparsable_matrix_stops_before_solver one_d_file num_threads
    mask_file w img e :
  nib_load_get_data mask_file = inr img ->
  utils_parse_and_return_mats one_d_file = inl e ->
  let run :=
    calc_eigen_from_1d nib_load_get_data utils_parse_and_return_mats
      linalg_eigsh utils_map_centrality_matrix
      one_d_file num_threads mask_file w in
  run.2 = inl e /\
  new_events w run.1 =
    [EvNibLoad mask_file; EvSystem (export_cmd num_threads);
     EvParseMats one_d_file] /\
  files_written run.1 = files_written w.
Proof.
  intros Hload Hparse. cbn zeta. rewrite calc_eigen_run. cbn zeta.
  rewrite Hload, Hparse. cbn [fst snd]. split; [reflexivity|].
  split; [|reflexivity].
  apply new_events_app. rewrite !trace_log, <- !app_assoc. reflexivity.
Qed.

(** X4: the thread count reaches nothing but the text of the export
    command: for any two values the outcome, the files written, the
    environment, the request made to the solver and the values handed
    over for writing are the same. *)
Theorem num_threads_only_in_shell_command one_d_file n1 n2 mask_file w :
  let run1 :=
    calc_eigen_from_1d nib_load_get_data utils_parse_and_return_mats
      linalg_eigsh utils_map_centrality_matrix one_d_file n1 mask_file w in
  let run2 :=
    calc_eigen_from_1d nib_load_get_data utils_parse_and_return_mats
      linalg_eigsh utils_map_centrality_matrix one_d_file n2 mask_file w in
  run1.2 = run2.2 /\
  files_written run1.1 = files_written run2.1 /\
  environ run1.1 = environ run2.1 /\
  eigsh_requests (trace run1.1) = eigsh_requests (trace run2.1) /\
  centrality_calls (trace run1.1) = centrality_calls (trace run2.1).
Proof.
  cbn zeta. rewrite !calc_eigen_run. cbn zeta.
  destruct (nib_load_get_data mask_file) as [e|img];
    [repeat split; reflexivity|].
  destruct (utils_parse_and_return_mats one_d_file) as [e|[sim aff]];
    [|destruct (linalg_eigsh _ sim 1 "LM" 1000) as [e|[vals vect]];
      [|destruct (utils_map_centrality_matrix _ aff mask_file _)
          as [e|out]]];
    cbn [fst snd log write_file trace files_written environ];
    rewrite !eigsh_requests_app, !centrality_calls_app,
      !eigsh_requests_system, !centrality_calls_system;
    repeat split; reflexivity.
Qed.

(** X5: in every outcome the environment and the working directory of
    the process are what they were before the call. *)
Theorem process_state_untouched one_d_file num_threads mask_file w :
  let run :=
    calc_eigen_from_1d nib_load_get_data utils_parse_and_return_mats
      linalg_eigsh utils_map_centrality_matrix
      one_d_file num_threads mask_file w in
  environ run.1 = environ w /\ cwd run.1 = cwd w.
Proof.
  cbn zeta. rewrite calc_eigen_run. cbn zeta.
  destruct (nib_load_get_data mask_file) as [e|img]; [split; reflexivity|].
  destruct (utils_parse_and_return_mats one_d_file) as [e|[sim aff]];
    [split; reflexivity|].
  destruct (linalg_eigsh _ sim 1 "LM" 1000) as [e|[vals vect]];
    [split; reflexivity|].
  destruct (utils_map_centrality_matrix _ aff mask_file _) as [e|out];
    split; reflexivity.
Qed.

(** X6: the collaborators are called in one fixed order, each at most
    once: image reader, shell, parser, solver, writer. Every run stops
    somewhere along that line, and a run that returns has gone through
    all five. *)
Theorem collaborators_called_in_order one_d_file num_threads mask_file w :
  let run :=
    calc_eigen_from_1d nib_load_get_data utils_parse_and_return_mats
      linalg_eigsh utils_map_centrality_matrix
      one_d_file num_threads mask_file w in
  (exists rest,
     [0; 1; 2; 3; 4]%nat = (event_kind <$> new_events w run.1) ++ rest) /\
  (forall out, run.2 = inr out ->
     event_kind <$> new_events w run.1 = [0; 1; 2; 3; 4]%nat).
Proof.
  cbn zeta. rewrite calc_eigen_run. cbn zeta.
  destruct (nib_load_get_data mask_file) as [e|img].
  { cbn [fst snd]. rewrite (new_events_app _ _ [EvNibLoad mask_file])
      by apply trace_log.
    split; [now exists [1; 2; 3; 4]%nat|discriminate]. }
  destruct (utils_parse_and_return_mats one_d_file) as [e|[sim aff]].
  { cbn [fst snd].
    erewrite new_events_app
      by (rewrite !trace_log, <- !app_assoc; reflexivity).
    split; [now exists [3; 4]%nat|discriminate]. }
  destruct (linalg_eigsh _ sim 1 "LM" 1000) as [e|[vals vect]].
  { cbn [fst snd].
    erewrite new_events_app
      by (rewrite !trace_log, <- !app_assoc; reflexivity).
    split; [now exists [4]%nat|discriminate]. }
  destruct (utils_map_centrality_matrix _ aff mask_file _) as [e|out];
    cbn [fst snd];
    (erewrite new_events_app
       by (cbn [write_file trace]; rewrite !trace_log, <- !app_assoc;
           reflexivity));
    (split; [now exists []|]); [discriminate|reflexivity].
Qed.

End EigenEffects.

Lemma mask_unreadable_stops_everything_witness :
  calc_eigen_from_1d
    (fun _ => inl (IOError "No such file"))
    (fun _ => inr ([[0#1; 1#1]; [1#1; 0#1]], []))
    (fun _ _ _ _ _ => inr ([1#1], [[1#2]; [1#2]]))
    (fun _ _ _ _ => inr "eigenvector_centrality.nii.gz")
    "similarity_matrix.1D" 2 "mask.nii.gz" w0
  = (log (EvNibLoad "mask.nii.gz") w0, inl (IOError "No such file")).
Proof.
  apply (mask_unreadable_stops_everything
           (fun _ => inl (IOError "No such file"))
           (fun _ => inr ([[0#1; 1#1]; [1#1; 0#1]], []))
           (fun _ _ _ _ _ => inr ([1#1], [[1#2]; [1#2]]))
           (fun _ _ _ _ => inr "eigenvector_centrality.nii.gz")
           "similarity_matrix.1D" 2 "mask.nii.gz" w0
           (IOError "No such file")).
  reflexivity.
Defined.

Lemma unparsable_matrix_stops_before_solver_witness :
  let run :=
    calc_eigen_from_1d
      (fun _ => inr [0; 1; 1; 0])
      (fun _ => inl (ValueError "malformed 1D file"))
      (fun _ _ _ _ _ => inr ([1#1], [[1#2]; [1#2]]))
      (fun _ _ _ _ => inr "eigenvector_centrality.nii.gz")
      "similarity_matrix.1D" 2 "mask.nii.gz" w0 in
  run.2 = inl (ValueError "malformed 1D file") /\
  new_events w0 run.1 =
    [EvNibLoad "mask.nii.gz"; EvSystem (export_cmd 2);
     EvParseMats "similarity_matrix.1D"] /\
  files_written run.1 = files_written w0.
Proof.
  apply (unparsable_matrix_stops_before_solver
           (fun _ => inr [0; 1; 1; 0])
           (fun _ => inl (ValueError "malformed 1D file"))
           (fun _ _ _ _ _ => inr ([1#1], [[1#2]; [1#2]]))
           (fun _ _ _ _ => inr "eigenvector_centrality.nii.gz")
           "similarity_matrix.1D" 2 "mask.nii.gz" w0 [0; 1; 1; 0]
           (ValueError "malformed 1D file"));
    reflexivity.
Defined.

(** ** The output resolver on arbitrary inputs *)

Lemma normpath_isabs path :
  PosixPath.isabs path = true ->
  PosixPath.isabs (PosixPath.normpath path) = true.
Proof.
  intros Habs. unfold PosixPath.normpath.
  destruct (String.eqb_spec path EmptyString) as [->|_]; [discriminate|].
  cbn zeta.
  set (sl := PosixPath.initial_slashes path).
  assert (Hsl : sl = 1%nat \/ sl = 2%nat).
  { subst sl. unfold PosixPath.initial_slashes.
    unfold PosixPath.isabs in Habs. rewrite Habs.
    destruct (_ && _); auto. }
  set (comps := fold_left _ _ _).
  assert (Hp : PosixPath.isabs (repeat_str "/" sl +:+ Py.join "/" comps)
               = true).
  { destruct Hsl as [-> | ->]; apply startswith_slash. }
  destruct (String.eqb_spec (repeat_str "/" sl +:+ Py.join "/" comps)
              EmptyString) as [E|_]; [|exact Hp].
  rewrite E in Hp. discriminate.
Qed.

Lemma abspath_isabs cwd path :
  PosixPath.isabs cwd = true ->
  PosixPath.isabs (PosixPath.abspath cwd path) = true.
Proof.
  intros Hcwd. unfold PosixPath.abspath.
  destruct (PosixPath.isabs path) eqn:Hp; cbn [negb].
  - now apply normpath_isabs.
  - apply normpath_isabs. unfold PosixPath.join.
    unfold PosixPath.isabs in Hp. rewrite Hp.
    destruct (_ || _); apply startswith_app, Hcwd.
Qed.

(** What the resolver returns once the prefix is set. *)
Lemma one_d_outfile_slot (cwd : string)
    (inputs : afniDegreeCentralityInputSpec) (p : string) :
  prefix inputs = Some p ->
  exists outputs,
    _list_outputs cwd inputs = inr outputs /\
    outputs !! "degree_outfile" = Some (Defined (PosixPath.abspath cwd p)) /\
    outputs !! "one_d_outfile" =
      Some (match out_1d inputs with
            | Some s =>
                if String.eqb s EmptyString then Undefined
                else Defined (PosixPath.abspath cwd s)
            | None => Undefined
            end).
Proof.
  intros Hp. unfold _list_outputs. rewrite Hp.
  cbn [os_path_abspath rbind].
  destruct (out_1d inputs) as [s|]; cbn [truthy_trait].
  - unfold truthy_str. destruct (String.eqb s EmptyString);
      cbn [negb os_path_abspath rbind]; eexists;
      (split; [reflexivity|]); unfold output_spec_get.
    + split; [apply lookup_insert_eq|].
      rewrite lookup_insert_ne by discriminate.
      rewrite lookup_insert_ne by discriminate. apply lookup_insert_eq.
    + split; [|apply lookup_insert_eq].
      rewrite lookup_insert_ne by discriminate. apply lookup_insert_eq.
  - eexists. split; [reflexivity|]. unfold output_spec_get.
    split; [apply lookup_insert_eq|].
    rewrite lookup_insert_ne by discriminate.
    rewrite lookup_insert_ne by discriminate. apply lookup_insert_eq.
Qed.

(** X7: without a prefix the outputs cannot be resolved: the call raises,
    whatever the other inputs are. *)
Theorem list_outputs_needs_prefix (cwd : string)
    (inputs : afniDegreeCentralityInputSpec) :
  prefix inputs = None ->
  exists e, _list_outputs cwd inputs = inl e.
Proof.
  intros H. unfold _list_outputs. rewrite H. cbn. eauto.
Qed.

Lemma list_outputs_needs_prefix_witness :
  exists e,
    _list_outputs "/home/user"
      (assign no_inputs (Set_out_1d "similarity_matrix.1D")) = inl e.
Proof.
  apply (list_outputs_needs_prefix "/home/user"
           (assign no_inputs (Set_out_1d "similarity_matrix.1D"))).
  reflexivity.
Defined.

(** X8: with a prefix the outputs are resolved and hold exactly the two
    declared slots. [one_d_outfile] is undefined when [out_1d] is unset
    and also when it is the empty string; for every other value it is the
    absolute path of that value. *)
Theorem one_d_outfile_only_for_nonempty_name (cwd : string)
    (inputs : afniDegreeCentralityInputSpec) (p : string) :
  prefix inputs = Some p ->
  exists outputs,
    _list_outputs cwd inputs = inr outputs /\
    dom outputs = ({["degree_outfile"; "one_d_outfile"]} : gset string) /\
    outputs !! "one_d_outfile" =
      Some (match out_1d inputs with
            | Some s =>
                if String.eqb s EmptyString then Undefined
                else Defined (PosixPath.abspath cwd s)
            | None => Undefined
            end).
Proof.
  intros Hp. unfold _list_outputs. rewrite Hp.
  cbn [os_path_abspath rbind].
  destruct (out_1d inputs) as [s|]; cbn [truthy_trait].
  - unfold truthy_str. destruct (String.eqb s EmptyString);
      cbn [negb os_path_abspath rbind]; eexists;
      (split; [reflexivity|]); unfold output_spec_get;
      (split; [rewrite !dom_insert_L; set_solver|]).
    + rewrite lookup_insert_ne by discriminate.
      rewrite lookup_insert_ne by discriminate. apply lookup_insert_eq.
    + apply lookup_insert_eq.
  - eexists. split; [reflexivity|]. unfold output_spec_get.
    split; [rewrite !dom_insert_L; set_solver|].
    rewrite lookup_insert_ne by discriminate.
    rewrite lookup_insert_ne by discriminate. apply lookup_insert_eq.
Qed.

Lemma one_d_outfile_only_for_nonempty_name_witness :
  exists outputs,
    _list_outputs "/home/user"
      (assign (assign no_inputs (Set_prefix "centrality"))
         (Set_out_1d EmptyString)) = inr outputs /\
    dom outputs = ({["degree_outfile"; "one_d_outfile"]} : gset string) /\
    outputs !! "one_d_outfile" = Some Undefined.
Proof.
  apply (one_d_outfile_only_for_nonempty_name "/home/user"
           (assign (assign no_inputs (Set_prefix "centrality"))
              (Set_out_1d EmptyString)) "centrality").
  reflexivity.
Defined.

(** X9: in an absolute working directory every resolved output is an
    absolute path, for every prefix and every [out_1d], relative or
    not. *)
Theorem outputs_are_absolute (cwd : string)
    (inputs : afniDegreeCentralityInputSpec) (p : string) :
  PosixPath.isabs cwd = true ->
  prefix inputs = Some p ->
  exists outputs,
    _list_outputs cwd inputs = inr outputs /\
    forall slot path,
      outputs !! slot = Some (Defined path) ->
      PosixPath.isabs path = true.
Proof.
  intros Hcwd Hp. unfold _list_outputs. rewrite Hp.
  cbn [os_path_abspath rbind].
  assert (Hslots : forall (o : gmap string tval) slot path,
             (forall slot' path', o !! slot' = Some (Defined path') ->
                                  PosixPath.isabs path' = true) ->
             forall k q, PosixPath.isabs q = true ->
             <[k := Defined q]> o !! slot = Some (Defined path) ->
             PosixPath.isabs path = true).
  { intros o slot path Ho k q Hq.
    destruct (decide (k = slot)) as [->|Hne].
    - rewrite lookup_insert_eq. now intros [= <-].
    - rewrite lookup_insert_ne by exact Hne. apply Ho. }
  assert (Hspec : forall slot' path',
             output_spec_get !! slot' = Some (Defined path') ->
             PosixPath.isabs path' = true).
  { intros slot' path'. unfold output_spec_get.
    destruct (decide ("degree_outfile" = slot')) as [<-|Hne];
      [rewrite lookup_insert_eq; discriminate|].
    rewrite lookup_insert_ne by exact Hne.
    destruct (decide ("one_d_outfile" = slot')) as [<-|Hne'];
      [rewrite lookup_insert_eq; discriminate|].
    rewrite lookup_insert_ne by exact Hne'.
    rewrite lookup_empty. discriminate. }
  destruct (truthy_trait (out_1d inputs)) eqn:Ht.
  - destruct (out_1d inputs) as [s|]; [|discriminate].
    cbn [os_path_abspath rbind]. eexists. split; [reflexivity|].
    intros slot path. apply Hslots; [|now apply abspath_isabs].
    intros slot' path'. apply Hslots; [exact Hspec|now apply abspath_isabs].
  - eexists. split; [reflexivity|].
    intros slot path. apply Hslots; [exact Hspec|now apply abspath_isabs].
Qed.

Lemma outputs_are_absolute_witness :
  exists outputs,
    _list_outputs "/home/user"
      (assign (assign no_inputs (Set_prefix "../out/./centrality"))
         (Set_out_1d "sim/matrix.1D")) = inr outputs /\
    forall slot path,
      outputs !! slot = Some (Defined path) ->
      PosixPath.isabs path = true.
Proof.
  apply (outputs_are_absolute "/home/user"
           (assign (assign no_inputs (Set_prefix "../out/./centrality"))
              (Set_out_1d "sim/matrix.1D")) "../out/./centrality");
    reflexivity.
Defined.

(** ** Paths in a normal working directory *)

Lemma split_app_first sep x rest :
  contains_char sep x = false ->
  split sep (x +:+ String sep EmptyString +:+ rest) = x :: split sep rest.
Proof.
  intros Hx. change (String sep EmptyString +:+ rest) with (String sep rest).
  induction x as [|c x IH].
  - change (EmptyString +:+ String sep rest) with (String sep rest).
    cbn [split]. now rewrite Ascii.eqb_refl.
  - cbn [contains_char] in Hx. apply orb_false_iff in Hx as [Hc Hx].
    rewrite str_app_cons. cbn [split]. rewrite Hc, (IH Hx). reflexivity.
Qed.

(** Splitting undoes joining, as long as no component holds the
    separator. *)
Lemma split_join sep comps :
  comps <> [] ->
  Forall (fun c => contains_char sep c = false) comps ->
  split sep (Py.join (String sep EmptyString) comps) = comps.
Proof.
  induction comps as [|x comps IH]; [congruence|]. intros _ Hall.
  inversion Hall as [|? ? Hx Hrest]; subst.
  destruct comps as [|y comps]; [now apply split_plain|].
  change (Py.join (String sep EmptyString) (x :: y :: comps))
    with (x +:+ String sep EmptyString
            +:+ Py.join (String sep EmptyString) (y :: comps)).
  rewrite (split_app_first _ _ _ Hx), IH; [reflexivity|discriminate|exact Hrest].
Qed.

Lemma fold_normpath_step_plain sl comps acc :
  Forall (fun c => plain_name c = true) comps ->
  fold_left (PosixPath.normpath_step sl) comps acc = acc ++ comps.
Proof.
  intros Hall. revert acc.
  induction Hall as [|c comps Hc _ IH]; intros acc;
    [now rewrite app_nil_r|].
  cbn [fold_left]. rewrite (normpath_step_plain _ _ _ Hc), IH.
  now rewrite <- app_assoc.
Qed.

Lemma plain_name_head f :
  plain_name f = true ->
  exists c f', f = String c f' /\ Ascii.eqb c "/" = false.
Proof.
  intros H. pose proof (plain_name_sep _ H) as Hs.
  destruct f as [|c f']; [discriminate|].
  cbn [contains_char] in Hs. apply orb_false_iff in Hs as [Hc _].
  now exists c, f'.
Qed.

Lemma join_head sep x comps c x' :
  x = String c x' ->
  exists rest, Py.join sep (x :: comps) = String c rest.
Proof.
  intros ->. destruct comps as [|y comps]; [now exists x'|].
  exists (x' +:+ sep +:+ Py.join sep (y :: comps)). reflexivity.
Qed.

Lemma Forall_plain_sep comps :
  Forall (fun c => plain_name c = true) comps ->
  Forall (fun c => contains_char "/" c = false) comps.
Proof.
  intros H. eapply Forall_impl; [exact H|]. intros c. apply plain_name_sep.
Qed.

(** A path made of plain components under the root is its own normal
    form. *)
Lemma normpath_root_dir comps :
  comps <> [] ->
  Forall (fun c => plain_name c = true) comps ->
  PosixPath.normpath (root_dir comps) = root_dir comps.
Proof.
  intros Hne Hall.
  destruct comps as [|x comps]; [congruence|].
  inversion Hall as [|? ? Hx _]; subst.
  destruct (plain_name_head _ Hx) as (c & x' & Ex & Hc).
  destruct (join_head "/" x comps c x' Ex) as [rest Ej].
  unfold PosixPath.normpath, root_dir.
  assert (Esplit : split "/" ("/" +:+ Py.join "/" (x :: comps))
                   = EmptyString :: x :: comps).
  { change ("/" +:+ Py.join "/" (x :: comps))
      with (String "/" (Py.join "/" (x :: comps))).
    cbn [split]. rewrite Ascii.eqb_refl.
    rewrite split_join; [reflexivity|discriminate|].
    now apply Forall_plain_sep. }
  assert (Esl : PosixPath.initial_slashes
                  ("/" +:+ Py.join "/" (x :: comps)) = 1%nat).
  { rewrite Ej. change ("/" +:+ String c rest) with (String "/" (String c rest)).
    unfold PosixPath.initial_slashes. rewrite startswith_slash.
    unfold startswith. cbn [String.prefix].
    destruct (ascii_dec "/" "/") as [_|]; [|congruence].
    destruct (ascii_dec "/" c) as [<-|_]; [discriminate|]. reflexivity. }
  rewrite Esplit, Esl.
  destruct (String.eqb_spec ("/" +:+ Py.join "/" (x :: comps)) EmptyString)
    as [E|_]; [discriminate|].
  cbn zeta.
  change (EmptyString :: x :: comps) with ([EmptyString] ++ x :: comps).
  rewrite fold_left_app.
  change (fold_left (PosixPath.normpath_step 1) [EmptyString] [])
    with (@nil string).
  rewrite (fold_normpath_step_plain _ _ _ Hall). cbn [app].
  change (repeat_str "/" 1 +:+ Py.join "/" (x :: comps))
    with ("/" +:+ Py.join "/" (x :: comps)).
  destruct (String.eqb_spec ("/" +:+ Py.join "/" (x :: comps)) EmptyString)
    as [E|_]; [discriminate|reflexivity].
Qed.

Lemma endswith_plain sep x :
  contains_char sep x = false -> endswith x (String sep EmptyString) = false.
Proof.
  induction x as [|c x IH]; intros H; rewrite endswith_eq.
  - reflexivity.
  - cbn [contains_char] in H. apply orb_false_iff in H as [Hc Hx].
    destruct (String.eqb_spec (String c x) (String sep EmptyString))
      as [E|_]; [|now apply IH].
    injection E as -> _. now rewrite Ascii.eqb_refl in Hc.
Qed.

Lemma endswith_app_plain sep a x :
  x <> EmptyString -> contains_char sep x = false ->
  endswith (a +:+ x) (String sep EmptyString) = false.
Proof.
  intros Hne Hx. induction a as [|c a IH].
  - now apply endswith_plain.
  - rewrite str_app_cons, endswith_eq.
    destruct (String.eqb_spec (String c (a +:+ x)) (String sep EmptyString))
      as [E|_]; [|exact IH].
    injection E as _ E. destruct a; [|discriminate]. now elim Hne.
Qed.

Lemma root_dir_snoc comps f :
  comps <> [] ->
  root_dir (comps ++ [f]) = root_dir comps +:+ "/" +:+ f.
Proof.
  intros Hne. unfold root_dir. rewrite join_app_last.
  destruct comps as [|x comps]; [congruence|].
  now rewrite !str_app_assoc.
Qed.

Lemma join_root_dir comps f :
  Forall (fun c => plain_name c = true) comps ->
  plain_name f = true ->
  PosixPath.join (root_dir comps) f = root_dir (comps ++ [f]).
Proof.
  intros Hall Hf. unfold PosixPath.join.
  pose proof (plain_name_not_abs _ Hf) as Hrel.
  unfold PosixPath.isabs in Hrel. rewrite Hrel.
  destruct comps as [|x l _] using rev_ind.
  - reflexivity.
  - assert (Hx : plain_name x = true).
    { apply Forall_app in Hall as [_ Hx]. now inversion Hx. }
    assert (Hend : endswith (root_dir (l ++ [x])) "/" = false).
    { destruct l as [|y l].
      - apply (endswith_app_plain "/" "/" x).
        + destruct (plain_name_head _ Hx) as (c & x' & -> & _). discriminate.
        + now apply plain_name_sep.
      - rewrite root_dir_snoc by discriminate.
        rewrite <- str_app_assoc.
        apply endswith_app_plain.
        + destruct (plain_name_head _ Hx) as (c & x' & -> & _). discriminate.
        + now apply plain_name_sep. }
    rewrite Hend.
    destruct (String.eqb_spec (root_dir (l ++ [x])) EmptyString)
      as [E|_]; [discriminate|].
    cbn [orb]. symmetry. apply root_dir_snoc.
    destruct l; discriminate.
Qed.

Lemma abspath_root_dir comps f :
  Forall (fun c => plain_name c = true) comps ->
  plain_name f = true ->
  PosixPath.abspath (root_dir comps) f = root_dir (comps ++ [f]).
Proof.
  intros Hall Hf. unfold PosixPath.abspath.
  rewrite (plain_name_not_abs _ Hf). cbn [negb].
  rewrite (join_root_dir _ _ Hall Hf).
  apply normpath_root_dir.
  - destruct comps; discriminate.
  - apply Forall_app. split; [exact Hall|]. now constructor.
Qed.

(** X10: in a working directory [/c1/.../cn] of plain components (the
    root included), a prefix that is a plain file name resolves to
    [/c1/.../cn/prefix], and so does a plain [out_1d]. *)
Theorem outputs_in_normal_cwd (comps : list string) (f : string)
    (inputs : afniDegreeCentralityInputSpec) :
  Forall (fun c => plain_name c = true) comps ->
  plain_name f = true ->
  prefix inputs = Some f ->
  exists outputs,
    _list_outputs (root_dir comps) inputs = inr outputs /\
    outputs !! "degree_outfile" = Some (Defined (root_dir (comps ++ [f]))) /\
    forall g, plain_name g = true -> out_1d inputs = Some g ->
      outputs !! "one_d_outfile" = Some (Defined (root_dir (comps ++ [g]))).
Proof.
  intros Hall Hf Hp.
  destruct (one_d_outfile_slot (root_dir comps) inputs f Hp)
    as (outputs & Hout & Hdeg & Hone).
  exists outputs. split; [exact Hout|]. split.
  - rewrite Hdeg. now rewrite (abspath_root_dir _ _ Hall Hf).
  - intros g Hg Ho. rewrite Hone, Ho.
    destruct (plain_name_head _ Hg) as (c & g' & -> & _).
    cbn [String.eqb]. now rewrite (abspath_root_dir _ _ Hall Hg).
Qed.

Lemma outputs_in_normal_cwd_witness :
  exists outputs,
    _list_outputs (root_dir ["home"; "user"; "work"])
      (assign (assign no_inputs (Set_prefix "centrality"))
         (Set_out_1d "similarity_matrix.1D")) = inr outputs /\
    outputs !! "degree_outfile"
      = Some (Defined (root_dir (["home"; "user"; "work"] ++ ["centrality"])))
    /\
    forall g, plain_name g = true ->
      Some "similarity_matrix.1D" = Some g ->
      outputs !! "one_d_outfile"
        = Some (Defined (root_dir (["home"; "user"; "work"] ++ [g]))).
Proof.
  apply (outputs_in_normal_cwd ["home"; "user"; "work"] "centrality"
           (assign (assign no_inputs (Set_prefix "centrality"))
              (Set_out_1d "similarity_matrix.1D"))).
  - repeat constructor.
  - reflexivity.
  - reflexivity.
Defined.

(** ** The assembled workflow *)



(** X11: with [run_eigen = True] the workflow has three nodes and four
    connections: the similarity matrix of the command node feeds the
    eigen node and the output node, the eigen node feeds [eigen_output],
    the degree image feeds [degree_output]. The inputs set on the eigen
    node are [num_threads] and nothing else; [mask_file] is neither set
    nor connected. *)
Theorem eigen_branch_connections (wf_name : string)
    (num_threads memory : Z) :
  exists wf,
    create_network_centrality_wf wf_name num_threads memory true = inr wf /\
    n_name <$> w_nodes wf =
      ["afni_degree_centrality"; "run_eigen_node"; "output_node"] /\
    w_edges wf =
      [ mkEdge "afni_degree_centrality" "one_d_outfile"
               "run_eigen_node" "one_d_file";
        mkEdge "run_eigen_node" "eigen_outfile"
               "output_node" "eigen_output";
        mkEdge "afni_degree_centrality" "degree_outfile"
               "output_node" "degree_output";
        mkEdge "afni_degree_centrality" "one_d_outfile"
               "output_node" "one_d_output" ] /\
    function_inputs wf "run_eigen_node"
      = Some {[ "num_threads" := VInt num_threads ]} /\
    ({[ "num_threads" := VInt num_threads ]} : gmap string value)
      !! "mask_file" = None /\
    port_connected wf "run_eigen_node" "mask_file" = false.
Proof. eexists. repeat split; reflexivity. Qed.

(** X12: for all arguments the workflow is well formed: every connection
    joins two nodes of the workflow, from an output the source has to an
    input the destination has; no input is fed twice; node names are
    distinct. *)
Theorem workflow_well_formed (wf_name : string) (num_threads memory : Z)
    (run_eigen : bool) :
  exists wf,
    create_network_centrality_wf wf_name num_threads memory run_eigen
      = inr wf /\
    well_formed wf = true.
Proof. destruct run_eigen; eexists; split; reflexivity. Qed.

(** X13: the thread count and the memory given to the function are put on
    every node that computes (the command node, and the eigen node when
    there is one) and not on the output node; the command runs with
    OMP_NUM_THREADS set to the thread count in decimal. *)
Theorem resource_hints_on_nodes (wf_name : string) (num_threads memory : Z)
    (run_eigen : bool) :
  exists wf env,
    create_network_centrality_wf wf_name num_threads memory run_eigen
      = inr wf /\
    resources wf =
      (if run_eigen
       then [ ("afni_degree_centrality", Some num_threads, Some memory);
              ("run_eigen_node", Some num_threads, Some memory);
              ("output_node", None, None) ]
       else [ ("afni_degree_centrality", Some num_threads, Some memory);
              ("output_node", None, None) ]) /\
    command_environ wf = Some env /\
    env !! "OMP_NUM_THREADS" = Some (fmt_d num_threads).
Proof. destruct run_eigen; do 2 eexists; repeat split; reflexivity. Qed.

(** X14: the workflow and the output resolver together. Once the caller
    has set the prefix on the command node, in an absolute working
    directory the resolver gives a defined [one_d_outfile], an absolute
    path ending in [/similarity_matrix.1D], when the workflow was built
    with [run_eigen = True]; built with [run_eigen = False], the slot
    that feeds [one_d_output] is undefined. *)
Theorem one_d_outfile_follows_run_eigen (wf_name : string)
    (num_threads memory : Z) (run_eigen : bool) (cwd p : string) :
  PosixPath.isabs cwd = true ->
  exists wf i outputs,
    create_network_centrality_wf wf_name num_threads memory run_eigen
      = inr wf /\
    command_inputs wf = Some i /\
    _list_outputs cwd (assign i (Set_prefix p)) = inr outputs /\
    if run_eigen
    then exists dir,
           outputs !! "one_d_outfile"
           = Some (Defined (dir +:+ "/" +:+ "similarity_matrix.1D")) /\
           PosixPath.isabs (dir +:+ "/" +:+ "similarity_matrix.1D") = true
    else outputs !! "one_d_outfile" = Some Undefined.
Proof.
  intros Hcwd. destruct run_eigen.
  - destruct (one_d_outfile_slot cwd
                (assign (assign no_inputs (Set_out_1d "similarity_matrix.1D"))
                   (Set_prefix p)) p eq_refl)
      as (outputs & Hout & _ & Hone).
    do 3 eexists. split; [reflexivity|]. split; [reflexivity|].
    split; [exact Hout|].
    destruct (abspath_plain_name cwd "similarity_matrix.1D" Hcwd eq_refl)
      as (dir & E & Habs).
    exists dir. rewrite Hone. cbn [out_1d assign String.eqb Ascii.eqb].
    rewrite <- E. split; [reflexivity|exact Habs].
  - destruct (one_d_outfile_slot cwd (assign no_inputs (Set_prefix p)) p
                eq_refl) as (outputs & Hout & _ & Hone).
    do 3 eexists. split; [reflexivity|]. split; [reflexivity|].
    split; [exact Hout|]. exact Hone.
Qed.

Lemma one_d_outfile_follows_run_eigen_witness :
  exists wf i outputs,
    create_network_centrality_wf "network_centrality" 2 4 true = inr wf /\
    command_inputs wf = Some i /\
    _list_outputs "/home/user" (assign i (Set_prefix "centrality"))
      = inr outputs /\
    exists dir,
      outputs !! "one_d_outfile"
      = Some (Defined (dir +:+ "/" +:+ "similarity_matrix.1D")) /\
      PosixPath.isabs (dir +:+ "/" +:+ "similarity_matrix.1D") = true.
Proof.
  apply (one_d_outfile_follows_run_eigen "network_centrality" 2 4 true
           "/home/user" "centrality").
  reflexivity.
Defined.

(** ** The command line for arbitrary inputs *)

(** X15: with the argument builder modelled above, no argument is lost
    and none is repeated: for all inputs, the argument list is a
    rearrangement of the arguments of the traits that are set, one per
    trait. *)
Theorem no_argument_lost (i : afniDegreeCentralityInputSpec) :
  parse_inputs input_spec i ≡ₚ omap (arg_of i) trait_names.
Proof.
  assert (E : parse_inputs input_spec i =
              omap (arg_of i)
                (["prefix"; "mask"; "thresh"; "sparsity"; "out_1d"; "polort"]
                 ++ ["args"; "autoclip"; "automask"] ++ ["dataset"])).
  { rewrite parse_inputs_shape.
    rewrite (omap_app (arg_of i) _ (_ ++ _)).
    now rewrite (omap_app (arg_of i)). }
  rewrite E. apply omap_Permutation. apply (bool_decide_unpack _). vm_compute.
  reflexivity.
Qed.

(** X16: [prefix] is the only mandatory trait of the input spec. Once it
    is set the validation passes, whatever else is missing (the dataset
    included), and the command is started once, with the arguments of the
    inputs as they are. *)
Theorem prefix_is_the_only_mandatory_input (file_exists : string -> bool)
    (exec : list string -> Z)
    (inputs : afniDegreeCentralityInputSpec) (w : World) (p : string) :
  prefix inputs = Some p ->
  let cmdline := _cmd :: parse_inputs input_spec inputs in
  let r := afniDegreeCentrality_run file_exists exec inputs w in
  t_name <$> List.filter (fun t => t_mandatory t) input_spec = ["prefix"] /\
  check_mandatory_inputs input_spec inputs = inr tt /\
  processes_started (trace r.1) = processes_started (trace w) ++ [cmdline].
Proof.
  intros Hp. cbn zeta. split; [reflexivity|].
  assert (Hcheck : check_mandatory_inputs input_spec inputs = inr tt).
  { unfold input_spec.
    cbn [check_mandatory_inputs t_mandatory t_get andb].
    rewrite Hp. reflexivity. }
  split; [exact Hcheck|].
  unfold afniDegreeCentrality_run, run, popen, tell, ret, lift, raise, bind.
  rewrite Hcheck. cbn beta iota.
  destruct (exec (_cmd :: parse_inputs input_spec inputs) =? 0);
    cbn [fst snd log trace cwd];
    unfold processes_started; rewrite omap_app; reflexivity.
Qed.

Lemma prefix_is_the_only_mandatory_input_witness :
  let inputs := assign no_inputs (Set_prefix "centrality") in
  let cmdline := _cmd :: parse_inputs input_spec inputs in
  let r := afniDegreeCentrality_run (fun _ => true) (fun _ => 0) inputs w0 in
  t_name <$> List.filter (fun t => t_mandatory t) input_spec = ["prefix"] /\
  check_mandatory_inputs input_spec inputs = inr tt /\
  processes_started (trace r.1) = processes_started (trace w0) ++ [cmdline].
Proof.
  apply (prefix_is_the_only_mandatory_input (fun _ => true) (fun _ => 0)
           (assign no_inputs (Set_prefix "centrality")) w0 "centrality").
  reflexivity.
Defined.

(** X18: [degree_outfile] is declared with [exists=True]: when the
    command has exited with status 0, the run returns the resolved
    outputs if the file named by [degree_outfile] exists, and raises if it
    does not. *)
Theorem degree_outfile_must_exist (file_exists : string -> bool)
    (exec : list string -> Z)
    (inputs : afniDegreeCentralityInputSpec) (w : World) (p : string) :
  prefix inputs = Some p ->
  exec (_cmd :: parse_inputs input_spec inputs) = 0 ->
  let r := afniDegreeCentrality_run file_exists exec inputs w in
  if file_exists (PosixPath.abspath (cwd w) p)
  then r.2 = _list_outputs (cwd w) inputs
  else exists msg, r.2 = inl (FileNotFoundError msg).
Proof.
  intros Hp Hexit. cbn zeta.
  assert (Hcheck : check_mandatory_inputs input_spec inputs = inr tt).
  { unfold input_spec.
    cbn [check_mandatory_inputs t_mandatory t_get andb].
    rewrite Hp. reflexivity. }
  unfold afniDegreeCentrality_run, run, popen, tell, ret, lift, raise, bind.
  rewrite Hcheck. cbn beta iota. rewrite Hexit.
  cbn [Z.eqb fst snd log cwd].
  destruct (one_d_outfile_slot (cwd w) inputs p Hp)
    as (outputs & Hout & Hdeg & Hone).
  unfold aggregate_outputs, output_spec. rewrite Hout.
  cbn [rbind check_outputs o_name o_exists]. rewrite Hdeg.
  destruct (file_exists (PosixPath.abspath (cwd w) p)); cbn [negb andb].
  - destruct (outputs !! "one_d_outfile") as [[|path]|]; reflexivity.
  - cbn [rbind]. eauto.
Qed.

Lemma degree_outfile_must_exist_witness :
  exists msg,
    (afniDegreeCentrality_run (fun _ => false) (fun _ => 0)
       (assign no_inputs (Set_prefix "centrality")) w0).2
    = inl (FileNotFoundError msg).
Proof.
  apply (degree_outfile_must_exist (fun _ => false) (fun _ => 0)
           (assign no_inputs (Set_prefix "centrality")) w0 "centrality");
    reflexivity.
Defined.

Section LaterAssignments.

Variable file_exists : string -> bool.

Lemma assign_keeps_out_1d i a :
  field_of a <> "out_1d" -> out_1d (assign i a) = out_1d i.
Proof. destruct a; intros H; solve [reflexivity | now elim H]. Qed.

Lemma supply_keeps_out_1d l :
  "out_1d" ∉ field_of <$> l ->
  forall i i', supply file_exists i l = inr i' -> out_1d i' = out_1d i.
Proof.
  induction l as [|a l IH]; intros Hnot i i' Hs.
  - now injection Hs as <-.
  - rewrite supply_cons in Hs.
    destruct (validate file_exists a); [discriminate|].
    rewrite fmap_cons, not_elem_of_cons in Hnot. destruct Hnot as [Ha Hl].
    rewrite (IH Hl _ _ Hs). apply assign_keeps_out_1d. congruence.
Qed.

(** X17: built with [run_eigen = True], the command node asks the tool
    for the similarity matrix: whatever the caller assigns afterwards, as
    long as [out_1d] is left alone, the argument list (under the argument
    builder modelled above) holds [-out1D similarity_matrix.1D]. *)
Theorem eigen_branch_requests_matrix_file (wf_name : string)
    (num_threads memory : Z) :
  exists wf i,
    create_network_centrality_wf wf_name num_threads memory true = inr wf /\
    command_inputs wf = Some i /\
    forall l i',
      "out_1d" ∉ field_of <$> l ->
      supply file_exists i l = inr i' ->
      "-out1D similarity_matrix.1D" ∈ parse_inputs input_spec i'.
Proof.
  do 2 eexists. split; [reflexivity|]. split; [reflexivity|].
  intros l i' Hnot Hs.
  pose proof (supply_keeps_out_1d l Hnot _ _ Hs) as Ho. cbn in Ho.
  rewrite parse_inputs_shape, !elem_of_app. left.
  apply list_elem_of_omap. exists "out_1d". split; [set_solver|].
  unfold arg_of. cbn. rewrite Ho. reflexivity.
Qed.

End LaterAssignments.
